(** * ChatCanvas: the streaming completion pipeline

    A shallow embedding of the parts of the repository that make up the
    streaming completion endpoint:

    - [src/lib/llm/types.ts]     the request schema and the shared data shapes,
    - [src/lib/llm/openai.ts]    the OpenAI adapter,
    - [src/lib/llm/anthropic.ts] the Anthropic adapter,
    - [src/lib/llm/index.ts]     the provider selector,
    - [src/lib/db/chatRepo.ts]   the chat repository,
    - [src/lib/chat.ts]          saving and reading a chat's history,
    - [src/app/api/chat/route.ts] the POST handler and its collector.

    JavaScript strings are modelled by [string], token counts by [Z],
    the numbers of the request schema by [Q], Prisma's tables by a [gmap]
    of chats keyed by id and a list of messages in insertion order. *)

From Stdlib Require Import ZArith QArith List String Bool Lia.
From stdpp Require Import base option list gmap strings sorting.
Import ListNotations.

Local Open Scope string_scope.
Local Open Scope list_scope.
Local Open Scope Z_scope.

(** ** Results of fallible code

    A JavaScript function that may throw returns [Ok v] or [Err e]. *)

Inductive Result (E A : Type) : Type :=
| Ok (v : A)
| Err (e : E).
Arguments Ok {E A} v.
Arguments Err {E A} e.

Definition is_ok {E A} (r : Result E A) : bool :=
  match r with Ok _ => true | Err _ => false end.

(** ** types.ts *)

Module Types.

(** [MessageRoleSchema = z.enum(["user", "assistant", "system"])] *)
Inductive MessageRole : Type := user | assistant | system.

Definition MessageRole_eqb (a b : MessageRole) : bool :=
  match a, b with
  | user, user | assistant, assistant | system, system => true
  | _, _ => false
  end.

Definition role_name (r : MessageRole) : string :=
  match r with
  | user => "user"
  | assistant => "assistant"
  | system => "system"
  end.

(** Parsing a role: the three literals of the enum, nothing else. *)
Definition MessageRoleSchema_parse (s : string) : option MessageRole :=
  if String.eqb s "user" then Some user
  else if String.eqb s "assistant" then Some assistant
  else if String.eqb s "system" then Some system
  else None.

(** A message as it arrives (the role is any string until it is parsed). *)
Record MessageInput : Type := mkMessageInput {
  in_role : string;
  in_content : string
}.

(** [Message = z.infer<typeof MessageSchema>] *)
Record Message : Type := mkMessage {
  role : MessageRole;
  content : string
}.

(** [ChatRequestInput = z.input<typeof ChatSchema>]: every field but
    [messages] may be omitted. *)
Record ChatRequestInput : Type := mkChatRequestInput {
  in_system : option string;
  in_messages : list MessageInput;
  in_stream : option bool;
  in_temperature : option Q;
  in_maxTokens : option Q;
  in_model : option string
}.

(** [ChatRequest = z.infer<typeof ChatSchema>]: [stream] and
    [temperature] carry a default and are always present. *)
Record ChatRequest : Type := mkChatRequest {
  req_system : option string;
  req_messages : list Message;
  req_stream : bool;
  req_temperature : Q;
  req_maxTokens : option Q;
  req_model : option string
}.

(** Zod reports every problem it finds, each with the path of the field. *)
Inductive PathElem : Type :=
| Key (k : string)
| Idx (i : nat).

Inductive IssueCode : Type :=
| too_small
| too_big
| invalid_enum_value.

Record ZodIssue : Type := mkZodIssue {
  issue_path : list PathElem;
  issue_code : IssueCode
}.

Record ZodError : Type := mkZodError { errors : list ZodIssue }.

(** [z.array(MessageSchema)]: the elements are parsed one by one; an
    element whose role is not in the enum adds an issue at
    [messages[i].role]. *)
Fixpoint parse_messages (i : nat) (ms : list MessageInput)
  : list ZodIssue * list Message :=
  match ms with
  | [] => ([], [])
  | m :: rest =>
      let '(issues, parsed) := parse_messages (S i) rest in
      match MessageRoleSchema_parse (in_role m) with
      | Some r => (issues, mkMessage r (in_content m) :: parsed)
      | None =>
          (mkZodIssue [Key "messages"; Idx i; Key "role"] invalid_enum_value
             :: issues, parsed)
      end
  end.

(** [.min(1, "At least one message is required")] *)
Definition messages_min_issues (ms : list MessageInput) : list ZodIssue :=
  if (length ms <? 1)%nat then [mkZodIssue [Key "messages"] too_small] else [].

(** [z.number().min(0).max(2)] *)
Definition temperature_issues (t : Q) : list ZodIssue :=
  (if Qle_bool 0%Q t then [] else [mkZodIssue [Key "temperature"] too_small])
  ++ (if Qle_bool t 2%Q then [] else [mkZodIssue [Key "temperature"] too_big]).

(** [z.number().positive()] *)
Definition maxTokens_issues (m : Q) : list ZodIssue :=
  if Qle_bool m 0%Q then [mkZodIssue [Key "maxTokens"] too_small] else [].

Definition optional_issues {A} (f : A -> list ZodIssue) (o : option A)
  : list ZodIssue :=
  match o with
  | Some v => f v
  | None => []
  end.

(** The default of [temperature]: the literal [0.7]. *)
Definition default_temperature : Q := (7 # 10)%Q.

(** [ChatSchema.parse]: all issues are collected; with none, the parsed
    request is returned with the defaults filled in, otherwise a
    [ZodError] is thrown and nothing is returned. *)
Definition ChatSchema_parse (input : ChatRequestInput)
  : Result ZodError ChatRequest :=
  let '(role_issues, parsed) := parse_messages 0 (in_messages input) in
  let issues :=
    messages_min_issues (in_messages input) ++ role_issues
    ++ optional_issues temperature_issues (in_temperature input)
    ++ optional_issues maxTokens_issues (in_maxTokens input) in
  match issues with
  | [] =>
      Ok {| req_system := in_system input;
            req_messages := parsed;
            req_stream := default false (in_stream input);
            req_temperature := default default_temperature (in_temperature input);
            req_maxTokens := in_maxTokens input;
            req_model := in_model input |}
  | _ :: _ => Err (mkZodError issues)
  end.

(** Turning a parsed request back into an input (a parsed request is
    passed on to functions that parse again). *)
Definition to_input (r : ChatRequest) : ChatRequestInput :=
  {| in_system := req_system r;
     in_messages :=
       map (fun m => mkMessageInput (role_name (role m)) (content m))
           (req_messages r);
     in_stream := Some (req_stream r);
     in_temperature := Some (req_temperature r);
     in_maxTokens := req_maxTokens r;
     in_model := req_model r |}.

(** [TokenUsage] *)
Record TokenUsage : Type := mkTokenUsage {
  promptTokens : Z;
  completionTokens : Z;
  totalTokens : Z
}.

(** The literals of [finishReason].  The field holds a string at run
    time (the OpenAI adapter passes the backend's string on with a cast);
    absent and [null] are both [None], they are treated alike wherever the
    field is read. *)
Definition fr_stop : string := "stop".
Definition fr_length : string := "length".

(** [StreamChunk] *)
Record StreamChunk : Type := mkStreamChunk {
  chunk_content : string;
  done : bool;
  chunk_model : option string;
  usage : option TokenUsage;
  finishReason : option string
}.

(** [ChatResponse] *)
Record ChatResponse : Type := mkChatResponse {
  resp_content : string;
  resp_model : string;
  resp_usage : TokenUsage;
  resp_finishReason : option string
}.

(** The two error classes of the module, and what else is thrown in the
    program: Zod's error, the two error classes of the chat repository,
    the errors of the storage engine, and any other exception. *)
Inductive Error : Type :=
| LLMProviderError (message : string)
| LLMAPIError (message : string) (provider : string) (statusCode : option Z)
| ZodErr (e : ZodError)
| ChatNotFoundError (chatId : string)
| InvalidMessageRoleError (role : string)
| StorageError (code : string)
| OtherError (message : string).

End Types.
Export Types.

(** ** JavaScript idioms used by the adapters *)

Module JS.

(** A string is truthy when it is not empty; [undefined] and [null] are
    falsy. *)
Definition truthy (o : option string) : bool :=
  match o with
  | Some s => negb (String.eqb s "")
  | None => false
  end.

(** [a || b] where [a] is a string that may be missing. *)
Definition or_string (a : option string) (b : string) : string :=
  match a with
  | Some s => if String.eqb s "" then b else s
  | None => b
  end.

(** [a || null] where [a] is a string that may be missing. *)
Definition or_null (a : option string) : option string :=
  match a with
  | Some s => if String.eqb s "" then None else Some s
  | None => None
  end.

(** [n || 0] where [n] is a number that may be missing. *)
Definition or_zero (n : option Z) : Z :=
  match n with
  | Some v => if v =? 0 then 0 else v
  | None => 0
  end.

(** [n || d] where [n] is a number of the request that may be missing. *)
Definition or_num (n : option Q) (d : Q) : Q :=
  match n with
  | Some v => if Qeq_bool v 0%Q then d else v
  | None => d
  end.

Definition lower_ascii (c : Ascii.ascii) : Ascii.ascii :=
  let n := Ascii.nat_of_ascii c in
  if ((65 <=? n) && (n <=? 90))%nat then Ascii.ascii_of_nat (n + 32) else c.

(** [s.toLowerCase()], on the letters A to Z. *)
Fixpoint toLowerCase (s : string) : string :=
  match s with
  | EmptyString => EmptyString
  | String c rest => String (lower_ascii c) (toLowerCase rest)
  end.

(** [s.substring(0, n)]: the first [n] characters, or all of [s] when it
    is shorter. *)
Definition substring0 (n : nat) (s : string) : string := String.substring 0 n s.

End JS.

(** ** Streams

    A [ReadableStream] is described by what its source does with the
    controller: the chunks it enqueues, in order, and how it ends
    ([controller.close()] or [controller.error(e)]). *)

Inductive StreamEnd : Type :=
| Closed
| Errored (e : Error).

Record ReadableStream (A : Type) : Type := mkStream {
  enqueued : list A;
  ending : StreamEnd
}.
Arguments mkStream {A} enqueued ending.
Arguments enqueued {A} r.
Arguments ending {A} r.

(** What a backend SDK may throw: its own [APIError], which carries a
    status when the backend sent one, or anything else. *)
Inductive SdkError : Type :=
| APIError (message : string) (status : option Z)
| NonAPIError (message : string).

(** An async iterable of the SDK: the items it yields, then the end of the
    iteration or an exception. *)
Record AsyncIterable (A : Type) : Type := mkIter {
  items : list A;
  thrown : option SdkError
}.
Arguments mkIter {A} items thrown.
Arguments items {A} a.
Arguments thrown {A} a.

(** The process environment read by the providers and the selector. *)
Record Env : Type := mkEnv {
  LLM_PROVIDER : option string;
  OPENAI_API_KEY : option string;
  OPENAI_MODEL : option string;
  ANTHROPIC_API_KEY : option string;
  ANTHROPIC_MODEL : option string
}.

(** ** openai.ts *)

Module OpenAI.

(** The parts of the SDK's types that the adapter reads. *)
Record CompletionUsage : Type := mkCompletionUsage {
  prompt_tokens : Z;
  completion_tokens : Z;
  total_tokens : Z
}.

Record MessageParam : Type := mkMessageParam {
  param_role : string;
  param_content : string
}.

Record CreateParams : Type := mkCreateParams {
  p_model : string;
  p_messages : list MessageParam;
  p_temperature : Q;
  p_max_tokens : option Q;
  p_stream : bool;
  p_include_usage : bool
}.

(** One choice of a streamed chunk: [delta.content] and [finish_reason]. *)
Record ChunkChoice : Type := mkChunkChoice {
  delta_content : option string;
  finish_reason : option string
}.

Record CompletionChunk : Type := mkCompletionChunk {
  choices : list ChunkChoice;
  model : string;
  chunk_usage : option CompletionUsage
}.

(** One choice of a complete response. *)
Record Choice : Type := mkChoice {
  message_content : option string;
  choice_finish_reason : option string
}.

Record Completion : Type := mkCompletion {
  completion_choices : list Choice;
  completion_model : string;
  completion_usage : option CompletionUsage
}.

(** The backend behind [client.chat.completions.create]: what the call
    answers, for a streaming and for a plain request. *)
Record Backend : Type := mkBackend {
  create_stream : CreateParams -> Result SdkError (AsyncIterable CompletionChunk);
  create : CreateParams -> Result SdkError Completion
}.

(** [OpenAIProvider]: [client] is present when an API key was. *)
Record OpenAIProvider : Type := mkProvider {
  client : option string;
  defaultModel : string
}.

Definition new (env : Env) : OpenAIProvider :=
  {| client := if JS.truthy (OPENAI_API_KEY env) then OPENAI_API_KEY env else None;
     defaultModel := JS.or_string (OPENAI_MODEL env) "gpt-4o-mini" |}.

Definition getName : string := "OpenAI".

Definition isConfigured (p : OpenAIProvider) : bool :=
  match client p with Some _ => true | None => false end.

Definition formatMessages (sys : option string) (messages : list Message)
  : list MessageParam :=
  (if JS.truthy sys then [mkMessageParam "system" (default "" sys)] else [])
  ++ map (fun msg => mkMessageParam (role_name (role msg)) (content msg)) messages.

Definition not_configured : Error :=
  LLMAPIError
    "OpenAI API key not configured. Set OPENAI_API_KEY environment variable."
    getName None.

(** The [catch] of both methods. *)
Definition wrap_error (e : SdkError) : Error :=
  match e with
  | APIError message status =>
      LLMAPIError ("OpenAI API error: " ++ message)%string getName status
  | NonAPIError message => OtherError message
  end.

Definition usage_of (u : CompletionUsage) : TokenUsage :=
  {| promptTokens := prompt_tokens u;
     completionTokens := completion_tokens u;
     totalTokens := total_tokens u |}.

(** [chat]: the requests sent to the backend are returned beside the
    result. *)
Definition chat (backend : Backend) (p : OpenAIProvider)
  (requestInput : ChatRequestInput)
  : Result Error ChatResponse * list CreateParams :=
  match client p with
  | None => (Err not_configured, [])
  | Some _ =>
      match ChatSchema_parse requestInput with
      | Err z => (Err (ZodErr z), [])
      | Ok request =>
          let params :=
            {| p_model := JS.or_string (req_model request) (defaultModel p);
               p_messages := formatMessages (req_system request) (req_messages request);
               p_temperature := req_temperature request;
               p_max_tokens := req_maxTokens request;
               p_stream := false;
               p_include_usage := false |} in
          (match create backend params with
           | Err e => Err (wrap_error e)
           | Ok response =>
               match completion_choices response with
               | [] => Err (LLMAPIError "No response from OpenAI" getName None)
               | choice :: _ =>
                   Ok {| resp_content := JS.or_string (message_content choice) "";
                         resp_model := completion_model response;
                         resp_usage :=
                           {| promptTokens :=
                                JS.or_zero (prompt_tokens <$> completion_usage response);
                              completionTokens :=
                                JS.or_zero (completion_tokens <$> completion_usage response);
                              totalTokens :=
                                JS.or_zero (total_tokens <$> completion_usage response) |};
                         resp_finishReason := choice_finish_reason choice |}
               end
           end, [params])
      end
  end.

(** The body of the [for await] loop of [chatStream]: what one backend
    chunk makes the controller enqueue. *)
Definition on_chunk (chunk : CompletionChunk) : list StreamChunk :=
  let delta := delta_content <$> head (choices chunk) in
  let finishReason := head (choices chunk) ≫= finish_reason in
  (match delta with
   | Some (Some text) =>
       if JS.truthy (Some text)
       then [ {| chunk_content := text; done := false;
                 chunk_model := Some (model chunk);
                 usage := None; finishReason := None |} ]
       else []
   | _ => []
   end)
  ++ (if JS.truthy finishReason
      then [ {| chunk_content := ""; done := true;
                chunk_model := Some (model chunk);
                usage := usage_of <$> chunk_usage chunk;
                finishReason := finishReason |} ]
      else []).

(** [start(controller)] of the stream returned by [chatStream]. *)
Definition start (backend : Backend) (params : CreateParams)
  : ReadableStream StreamChunk :=
  match create_stream backend params with
  | Err e => mkStream [] (Errored (wrap_error e))
  | Ok stream =>
      mkStream (flat_map on_chunk (items stream))
               (match thrown stream with
                | None => Closed
                | Some e => Errored (wrap_error e)
                end)
  end.

Definition chatStream (backend : Backend) (p : OpenAIProvider)
  (requestInput : ChatRequestInput)
  : Result Error (ReadableStream StreamChunk) * list CreateParams :=
  match client p with
  | None => (Err not_configured, [])
  | Some _ =>
      match ChatSchema_parse requestInput with
      | Err z => (Err (ZodErr z), [])
      | Ok request =>
          let params :=
            {| p_model := JS.or_string (req_model request) (defaultModel p);
               p_messages := formatMessages (req_system request) (req_messages request);
               p_temperature := req_temperature request;
               p_max_tokens := req_maxTokens request;
               p_stream := true;
               p_include_usage := true |} in
          (Ok (start backend params), [params])
      end
  end.

End OpenAI.

(** ** anthropic.ts *)

Module Anthropic.

Record Usage : Type := mkUsage {
  input_tokens : Z;
  output_tokens : Z
}.

Inductive ContentBlock : Type :=
| text_block (text : string)
| other_block.

(** The message of a complete response, also what [finalMessage()]
    resolves to. *)
Record AMessage : Type := mkAMessage {
  a_content : list ContentBlock;
  a_model : string;
  a_usage : Usage;
  stop_reason : option string
}.

Inductive Delta : Type :=
| text_delta (text : string)
| other_delta.

(** The server-sent events the adapter looks at; [message_delta] may
    carry the output tokens counted so far. *)
Inductive StreamEvent : Type :=
| content_block_delta (d : Delta)
| message_delta (u : option Z)
| message_stop
| other_event.

Record MessageParam : Type := mkMessageParam {
  param_role : string;
  param_content : string
}.

Record CreateParams : Type := mkCreateParams {
  p_model : string;
  p_system : option string;
  p_messages : list MessageParam;
  p_temperature : Q;
  p_max_tokens : Q
}.

(** The stream object of the SDK: an async iterable of events, with
    [finalMessage()]. *)
Record MessageStream : Type := mkMessageStream {
  events : AsyncIterable StreamEvent;
  finalMessage : Result SdkError AMessage
}.

Record Backend : Type := mkBackend {
  messages_create : CreateParams -> Result SdkError AMessage;
  messages_stream : CreateParams -> Result SdkError MessageStream
}.

Inductive NetCall : Type :=
| call_create (p : CreateParams)
| call_stream (p : CreateParams).

Record AnthropicProvider : Type := mkProvider {
  apiKey : option string;
  defaultModel : string;
  client : option string
}.

Definition new (env : Env) : AnthropicProvider :=
  let key := JS.or_null (ANTHROPIC_API_KEY env) in
  {| apiKey := key;
     defaultModel := JS.or_string (ANTHROPIC_MODEL env) "claude-3-5-sonnet-20241022";
     client := key |}.

Definition getName : string := "Anthropic".

Definition isConfigured (p : AnthropicProvider) : bool :=
  match apiKey p, client p with
  | Some _, Some _ => true
  | _, _ => false
  end.

(** System messages are dropped: the backend takes the system prompt in a
    field of its own. *)
Definition formatMessages (messages : list Message) : list MessageParam :=
  map (fun msg => mkMessageParam (role_name (role msg)) (content msg))
      (List.filter (fun msg => negb (MessageRole_eqb (role msg) system)) messages).

Definition not_configured : Error :=
  LLMAPIError
    "Anthropic API key not configured. Set ANTHROPIC_API_KEY environment variable."
    getName None.

Definition wrap_error (e : SdkError) : Error :=
  match e with
  | APIError message status => LLMAPIError message getName status
  | NonAPIError message => OtherError message
  end.

Definition mapStopReason (reason : option string) : option string :=
  match reason with
  | None => None
  | Some r =>
      if String.eqb r "" then None
      else if String.eqb r "end_turn" then Some fr_stop
      else if String.eqb r "max_tokens" then Some fr_length
      else if String.eqb r "stop_sequence" then Some fr_stop
      else None
  end.

Definition params_of (p : AnthropicProvider) (request : ChatRequest) : CreateParams :=
  {| p_model := JS.or_string (req_model request) (defaultModel p);
     p_system := req_system request;
     p_messages := formatMessages (req_messages request);
     p_temperature := req_temperature request;
     p_max_tokens := JS.or_num (req_maxTokens request) 4096%Q |}.

Definition block_text (b : ContentBlock) : string :=
  match b with
  | text_block t => t
  | other_block => ""
  end.

Definition is_text (b : ContentBlock) : bool :=
  match b with
  | text_block _ => true
  | other_block => false
  end.

Definition usage_of (u : Usage) : TokenUsage :=
  {| promptTokens := input_tokens u;
     completionTokens := output_tokens u;
     totalTokens := input_tokens u + output_tokens u |}.

Definition chat (backend : Backend) (p : AnthropicProvider)
  (requestInput : ChatRequestInput)
  : Result Error ChatResponse * list NetCall :=
  match client p with
  | None => (Err not_configured, [])
  | Some _ =>
      match ChatSchema_parse requestInput with
      | Err z => (Err (ZodErr z), [])
      | Ok request =>
          let params := params_of p request in
          (match messages_create backend params with
           | Err e => Err (wrap_error e)
           | Ok response =>
               Ok {| resp_content :=
                       String.concat "" (map block_text
                                           (List.filter is_text (a_content response)));
                     resp_model := a_model response;
                     resp_usage := usage_of (a_usage response);
                     resp_finishReason := mapStopReason (stop_reason response) |}
           end, [call_create params])
      end
  end.

(** The [for await] loop of [chatStream]: the events still to come and
    the local variable [usage]; the result is what the controller was made
    to enqueue, and the exception that ended the loop, if any. *)
Fixpoint process (final : Result SdkError AMessage) (evs : list StreamEvent)
  (usage_var : option TokenUsage) : list StreamChunk * option SdkError :=
  match evs with
  | [] => ([], None)
  | content_block_delta (text_delta text) :: rest =>
      let '(out, exn) := process final rest usage_var in
      ({| chunk_content := text; done := false; chunk_model := None;
          usage := None; finishReason := None |} :: out, exn)
  | content_block_delta other_delta :: rest => process final rest usage_var
  | message_delta (Some out_tokens) :: rest =>
      process final rest
        (Some {| promptTokens := 0;
                 completionTokens := out_tokens;
                 totalTokens := out_tokens |})
  | message_delta None :: rest => process final rest usage_var
  | message_stop :: rest =>
      match final with
      | Err e => ([], Some e)
      | Ok message =>
          let usage_var' := usage_of (a_usage message) in
          let '(out, exn) := process final rest (Some usage_var') in
          ({| chunk_content := ""; done := true;
              chunk_model := Some (a_model message);
              usage := Some usage_var';
              finishReason := mapStopReason (stop_reason message) |} :: out, exn)
      end
  | other_event :: rest => process final rest usage_var
  end.

(** [start(controller)] of the stream returned by [chatStream]. *)
Definition start (backend : Backend) (params : CreateParams)
  : ReadableStream StreamChunk :=
  match messages_stream backend params with
  | Err e => mkStream [] (Errored (wrap_error e))
  | Ok stream =>
      let '(out, exn) := process (finalMessage stream) (items (events stream)) None in
      match exn with
      | Some e => mkStream out (Errored (wrap_error e))
      | None =>
          mkStream out
                   (match thrown (events stream) with
                    | None => Closed
                    | Some e => Errored (wrap_error e)
                    end)
      end
  end.

Definition chatStream (backend : Backend) (p : AnthropicProvider)
  (requestInput : ChatRequestInput)
  : Result Error (ReadableStream StreamChunk) * list NetCall :=
  match client p with
  | None => (Err not_configured, [])
  | Some _ =>
      match ChatSchema_parse requestInput with
      | Err z => (Err (ZodErr z), [])
      | Ok request =>
          let params := params_of p request in
          (Ok (start backend params), [call_stream params])
      end
  end.

End Anthropic.

(** ** The earlier Anthropic adapter (a placeholder that calls no backend) *)

Module AnthropicStub.

Record AnthropicProvider : Type := mkProvider {
  apiKey : option string;
  defaultModel : string
}.

Definition new (env : Env) : AnthropicProvider :=
  {| apiKey := JS.or_null (ANTHROPIC_API_KEY env);
     defaultModel := JS.or_string (ANTHROPIC_MODEL env) "claude-3-5-sonnet-20241022" |}.

Definition getName : string := "Anthropic".

Definition isConfigured (p : AnthropicProvider) : bool :=
  match apiKey p with Some _ => true | None => false end.

Definition chat (p : AnthropicProvider) (request : ChatRequest)
  : Result Error ChatResponse * list Anthropic.NetCall :=
  match apiKey p with
  | None => (Err Anthropic.not_configured, [])
  | Some _ =>
      (Err (LLMAPIError
              "Anthropic provider not yet fully implemented. Please use OpenAI provider or implement Anthropic integration."
              getName None), [])
  end.

Definition chatStream (p : AnthropicProvider) (request : ChatRequest)
  : Result Error (ReadableStream StreamChunk) * list Anthropic.NetCall :=
  match apiKey p with
  | None => (Err Anthropic.not_configured, [])
  | Some _ =>
      (Ok (mkStream []
             (Errored (LLMAPIError
                         "Anthropic streaming not yet implemented. TODO: Add SSE streaming support."
                         "Anthropic" None))), [])
  end.

End AnthropicStub.

(** ** index.ts: the provider selector *)

Module LLM.

(** The network: one backend per provider. *)
Record Network : Type := mkNetwork {
  openai_backend : OpenAI.Backend;
  anthropic_backend : Anthropic.Backend
}.

(** A request that left the process. *)
Inductive NetCall : Type :=
| openai_call (p : OpenAI.CreateParams)
| anthropic_call (c : Anthropic.NetCall).

(** [LLMProvider]: the interface, with its two implementations. *)
Inductive LLMProvider : Type :=
| openai_provider (p : OpenAI.OpenAIProvider)
| anthropic_provider (p : Anthropic.AnthropicProvider).

Definition getName (p : LLMProvider) : string :=
  match p with
  | openai_provider _ => OpenAI.getName
  | anthropic_provider _ => Anthropic.getName
  end.

Definition isConfigured (p : LLMProvider) : bool :=
  match p with
  | openai_provider q => OpenAI.isConfigured q
  | anthropic_provider q => Anthropic.isConfigured q
  end.

Definition provider_chat (net : Network) (p : LLMProvider) (input : ChatRequestInput)
  : Result Error ChatResponse * list NetCall :=
  match p with
  | openai_provider q =>
      let '(r, calls) := OpenAI.chat (openai_backend net) q input in
      (r, map openai_call calls)
  | anthropic_provider q =>
      let '(r, calls) := Anthropic.chat (anthropic_backend net) q input in
      (r, map anthropic_call calls)
  end.

Definition provider_chatStream (net : Network) (p : LLMProvider)
  (input : ChatRequestInput)
  : Result Error (ReadableStream StreamChunk) * list NetCall :=
  match p with
  | openai_provider q =>
      let '(r, calls) := OpenAI.chatStream (openai_backend net) q input in
      (r, map openai_call calls)
  | anthropic_provider q =>
      let '(r, calls) := Anthropic.chatStream (anthropic_backend net) q input in
      (r, map anthropic_call calls)
  end.

(** [getProvider] *)
Definition getProvider (env : Env) : Result Error LLMProvider :=
  let providerType := JS.toLowerCase (JS.or_string (LLM_PROVIDER env) "openai") in
  let chosen :=
    if String.eqb providerType "openai" then Some (openai_provider (OpenAI.new env))
    else if String.eqb providerType "anthropic"
         then Some (anthropic_provider (Anthropic.new env))
         else None in
  match chosen with
  | None =>
      Err (LLMProviderError
             ("Invalid LLM_PROVIDER: " ++ providerType
              ++ ". Must be one of: openai, anthropic")%string)
  | Some provider =>
      if isConfigured provider then Ok provider
      else Err (LLMProviderError
                  (getName provider
                   ++ " provider is not configured. Please set the required API key environment variable.")%string)
  end.

(** [ProviderType] *)
Inductive ProviderType : Type := openai | anthropic.

(** [getProviderByType]: the instance may not be configured. *)
Definition getProviderByType (env : Env) (type : ProviderType) : LLMProvider :=
  match type with
  | openai => openai_provider (OpenAI.new env)
  | anthropic => anthropic_provider (Anthropic.new env)
  end.

(** What the functions of the module did that can be seen from outside:
    which adapter method was entered, and what was sent to a backend. *)
Inductive Event : Type :=
| adapter_chat (provider : string)
| adapter_chatStream (provider : string)
| network (c : NetCall).

(** [chat] *)
Definition chat (env : Env) (net : Network) (request : ChatRequestInput)
  : Result Error ChatResponse * list Event :=
  match ChatSchema_parse request with
  | Err z => (Err (ZodErr z), [])
  | Ok validated =>
      match getProvider env with
      | Err e => (Err e, [])
      | Ok provider =>
          let '(r, calls) := provider_chat net provider (to_input validated) in
          (r, adapter_chat (getName provider) :: map network calls)
      end
  end.

(** [chatStream]: the request is parsed with [stream: true] put in. *)
Definition chatStream (env : Env) (net : Network) (request : ChatRequestInput)
  : Result Error (ReadableStream StreamChunk) * list Event :=
  match ChatSchema_parse
          {| in_system := in_system request;
             in_messages := in_messages request;
             in_stream := Some true;
             in_temperature := in_temperature request;
             in_maxTokens := in_maxTokens request;
             in_model := in_model request |} with
  | Err z => (Err (ZodErr z), [])
  | Ok validated =>
      match getProvider env with
      | Err e => (Err e, [])
      | Ok provider =>
          let '(r, calls) := provider_chatStream net provider (to_input validated) in
          (r, adapter_chatStream (getName provider) :: map network calls)
      end
  end.

(** [getProviderStatus] *)
Definition getProviderStatus (env : Env) : bool * bool :=
  (OpenAI.isConfigured (OpenAI.new env), Anthropic.isConfigured (Anthropic.new env)).

(** [getCurrentProviderName] *)
Definition getCurrentProviderName (env : Env) : Result Error string :=
  match getProvider env with
  | Ok p => Ok (getName p)
  | Err e => Err e
  end.

End LLM.

(** ** The storage engine (Prisma client)

    Two tables: chats by id, and messages in the order they were
    inserted.  Every call may fail for reasons of its own (the connection,
    a timeout): [fails n] tells whether the [n]-th call of a run throws.
    [now n] is the clock at the [n]-th call and [cuid n] the id the
    engine generates there. *)

Module Prisma.

Record Chat : Type := mkChat {
  chat_id : string;
  chat_userId : option string;
  chat_title : option string;
  createdAt : Z;
  updatedAt : Z
}.

Record MessageRow : Type := mkRow {
  row_chatId : string;
  row_role : string;
  row_content : string;
  row_tokens : option Z;
  row_createdAt : Z
}.

Record Db : Type := mkDb {
  chats : gmap string Chat;
  rows : list MessageRow
}.

Record Storage : Type := mkStorage {
  fails : nat -> bool;
  now : nat -> Z;
  cuid : nat -> string
}.

Inductive DbCall : Type :=
| chat_findUnique (id : string)
| chat_create (id : option string) (userId title : option string)
| message_create (chatId role content : string) (tokens : option Z)
| chat_update (id : string).

(** A run of calls: the tables as they are now, and the calls made so
    far (oldest first). *)
Record TxState : Type := mkTxState {
  st_db : Db;
  st_calls : list DbCall
}.

(** Code that talks to the engine: state passing, with exceptions. *)
Definition Tx (A : Type) : Type := TxState -> TxState * Result Error A.

Definition ret {A} (v : A) : Tx A := fun st => (st, Ok v).

Definition bind {A B} (m : Tx A) (k : A -> Tx B) : Tx B :=
  fun st =>
    match m st with
    | (st', Ok v) => k v st'
    | (st', Err e) => (st', Err e)
    end.

(** One call: it is recorded, then it throws if the engine fails there,
    and otherwise does [op] at the time of the call. *)
Definition call {A} (S : Storage) (c : DbCall)
  (op : nat -> Db -> Result Error (Db * A)) : Tx A :=
  fun st =>
    let n := length (st_calls st) in
    let calls := st_calls st ++ [c] in
    if fails S n then (mkTxState (st_db st) calls, Err (StorageError "engine"))
    else match op n (st_db st) with
         | Ok (db', v) => (mkTxState db' calls, Ok v)
         | Err e => (mkTxState (st_db st) calls, Err e)
         end.

(** [chat.findUnique({ where: { id } })] *)
Definition findUnique (S : Storage) (id : string) : Tx (option Chat) :=
  call S (chat_findUnique id) (fun _ db => Ok (db, chats db !! id)).

(** [chat.create({ data })]: the id is the given one or a generated one;
    it must be new. *)
Definition create (S : Storage) (id : option string) (userId title : option string)
  : Tx Chat :=
  call S (chat_create id userId title)
    (fun n db =>
       let i := default (cuid S n) id in
       match chats db !! i with
       | Some _ => Err (StorageError "P2002")
       | None =>
           let c := mkChat i userId title (now S n) (now S n) in
           Ok (mkDb (<[i := c]> (chats db)) (rows db), c)
       end).

(** [message.create({ data })]: the chat it refers to must exist. *)
Definition createMessage (S : Storage) (chatId role content : string)
  (tokens : option Z) : Tx MessageRow :=
  call S (message_create chatId role content tokens)
    (fun n db =>
       match chats db !! chatId with
       | None => Err (StorageError "P2003")
       | Some _ =>
           let r := mkRow chatId role content tokens (now S n) in
           Ok (mkDb (chats db) (rows db ++ [r]), r)
       end).

(** [chat.update({ where: { id }, data: { updatedAt: new Date() } })] *)
Definition update (S : Storage) (id : string) : Tx Chat :=
  call S (chat_update id)
    (fun n db =>
       match chats db !! id with
       | None => Err (StorageError "P2025")
       | Some c =>
           let c' := mkChat (chat_id c) (chat_userId c) (chat_title c)
                            (createdAt c) (now S n) in
           Ok (mkDb (<[id := c']> (chats db)) (rows db), c')
       end).

(** Modelled from the spec: [prisma.$transaction(body)] of the client
    module [lib/db/prisma], which is not in the sources.  The storage
    collaborator is taken as the specification assumes it, with
    transactional guarantees: the body runs on the tables; when it throws,
    or when the commit fails, the tables are what they were before, and
    the exception goes to the caller. *)
Definition transaction {A} (S : Storage) (body : Tx A) (db : Db)
  : Db * Result Error A * list DbCall :=
  match body (mkTxState db []) with
  | (st, Ok v) =>
      if fails S (length (st_calls st))
      then (db, Err (StorageError "commit"), st_calls st)
      else (st_db st, Ok v, st_calls st)
  | (st, Err e) => (db, Err e, st_calls st)
  end.

(** Calls made outside a transaction take effect one by one. *)
Definition run {A} (body : Tx A) (db : Db) : Db * Result Error A * list DbCall :=
  match body (mkTxState db []) with
  | (st, r) => (st_db st, r, st_calls st)
  end.

(** Stable insertion by [createdAt], for [orderBy: { createdAt: "asc" }]. *)
Fixpoint insert_row (r : MessageRow) (l : list MessageRow) : list MessageRow :=
  match l with
  | [] => [r]
  | x :: rest =>
      if row_createdAt r <? row_createdAt x then r :: x :: rest
      else x :: insert_row r rest
  end.

Definition orderByCreatedAt (l : list MessageRow) : list MessageRow :=
  fold_left (fun acc r => insert_row r acc) l [].

Definition messages_of (db : Db) (id : string) : list MessageRow :=
  List.filter (fun r => String.eqb (row_chatId r) id) (rows db).

End Prisma.

Declare Scope tx_scope.
Delimit Scope tx_scope with tx.
Notation "'let*' x ':=' m 'in' k" := (Prisma.bind m (fun x => k))
  (at level 10, x name, m at level 100, k at level 200) : tx_scope.
Notation "'do' m 'then' k" := (Prisma.bind m (fun _ => k))
  (at level 10, m at level 100, k at level 200) : tx_scope.

(** ** chatRepo.ts *)

Module ChatRepo.
Import Prisma.

(** [ChatWithMessages] *)
Record ChatWithMessages : Type := mkChatWithMessages {
  chat : Chat;
  messages : list MessageRow
}.

(** [getOrCreateChat(chatId?, userId?, title?)]: with an id, the chat is
    looked up and must exist; without one (or with the empty string), a
    new chat is created. *)
Definition getOrCreateChat (S : Storage)
  (chatId userId title : option string) : Tx ChatWithMessages :=
  (if JS.truthy chatId then
     let id := default "" chatId in
     fun st =>
       (let* existingChat := findUnique S id in
        match existingChat with
        | None => fun st' => (st', Err (ChatNotFoundError id))
        | Some c =>
            fun st' =>
              (st', Ok (mkChatWithMessages c
                          (orderByCreatedAt (messages_of (st_db st') id))))
        end)%tx st
   else
     (let* newChat := create S None userId title in
      ret (mkChatWithMessages newChat []))%tx).

End ChatRepo.

(** ** [ReadableStream.tee()] *)

(** Modelled from the spec: [ReadableStream.tee()], which [POST] calls on
    the adapter's stream ([llmStream.tee()]), is the platform's method and
    is not in the sources.  The duplicator is taken as the specification
    describes it: one read loop that drives the producer, a buffer for
    each of the two consumers so that neither stalls the other, chunks
    passed on in the order of emission, and a failure of the producer
    delivered to both consumers.  Where the specification leaves the
    behaviour open it is the one the Streams standard gives [tee()]
    (ReadableStreamDefaultTee, ReadableStreamDefaultControllerEnqueue,
    -Close and -Error): closing the source closes both branches once
    their queues are drained, and an error of the source empties the
    queues (ResetQueue) and errors both branches.  The producer, the pull
    loop and the two readers advance in any order: a run is a list of
    actions. *)

Module Tee.

Inductive Branch : Type := branch1 | branch2.

Inductive Action : Type :=
| produce
| pull
| read (b : Branch).

Inductive SourceStatus : Type :=
| src_readable
| src_close_requested
| src_errored (e : Error).

Inductive BranchStatus : Type :=
| br_readable
| br_closed
| br_errored (e : Error).

(** What a reader has been told at the end: nothing yet, [done: true],
    or a rejection. *)
Inductive Seen : Type :=
| seen_nothing
| seen_done
| seen_error (e : Error).

Section Machine.
Context {A : Type}.

Record BranchState : Type := mkBranch {
  queue : list A;
  status : BranchStatus;
  received : list A;
  seen : Seen
}.

Record State : Type := mkState {
  pending : list A;
  src_end : StreamEnd;
  src_queue : list A;
  src_status : SourceStatus;
  first : BranchState;
  second : BranchState
}.

Definition branch (b : Branch) (t : State) : BranchState :=
  match b with
  | branch1 => first t
  | branch2 => second t
  end.

Definition set_branch (b : Branch) (s : BranchState) (t : State) : State :=
  match b with
  | branch1 =>
      mkState (pending t) (src_end t) (src_queue t) (src_status t) s (second t)
  | branch2 =>
      mkState (pending t) (src_end t) (src_queue t) (src_status t) (first t) s
  end.

(** Modelled from the spec: [stream.tee()], the platform's method, which
    is not in the sources.  It starts the duplication: nothing has been
    produced or pulled, and both branches are empty and readable. *)
Definition tee (s : ReadableStream A) : State :=
  {| pending := enqueued s;
     src_end := ending s;
     src_queue := [];
     src_status := src_readable;
     first := mkBranch [] br_readable [] seen_nothing;
     second := mkBranch [] br_readable [] seen_nothing |}.

(** The producer: [controller.enqueue], then [controller.close()] or
    [controller.error(e)]. *)
Definition step_produce (t : State) : State :=
  match src_status t with
  | src_readable =>
      match pending t with
      | c :: rest =>
          mkState rest (src_end t) (src_queue t ++ [c]) src_readable
                  (first t) (second t)
      | [] =>
          match src_end t with
          | Closed =>
              mkState [] (src_end t) (src_queue t) src_close_requested
                      (first t) (second t)
          | Errored e =>
              mkState [] (src_end t) [] (src_errored e) (first t) (second t)
          end
      end
  | _ => t
  end.

Definition enqueue (c : A) (s : BranchState) : BranchState :=
  match status s with
  | br_readable => mkBranch (queue s ++ [c]) (status s) (received s) (seen s)
  | _ => s
  end.

Definition close (s : BranchState) : BranchState :=
  match status s with
  | br_readable => mkBranch (queue s) br_closed (received s) (seen s)
  | _ => s
  end.

Definition error (e : Error) (s : BranchState) : BranchState :=
  match status s with
  | br_readable => mkBranch [] (br_errored e) (received s) (seen s)
  | _ => s
  end.

(** The pull loop: one read of the source, passed on to both branches. *)
Definition step_pull (t : State) : State :=
  match src_queue t with
  | c :: rest =>
      mkState (pending t) (src_end t) rest (src_status t)
              (enqueue c (first t)) (enqueue c (second t))
  | [] =>
      match src_status t with
      | src_readable => t
      | src_close_requested =>
          mkState (pending t) (src_end t) [] (src_status t)
                  (close (first t)) (close (second t))
      | src_errored e =>
          mkState (pending t) (src_end t) [] (src_status t)
                  (error e (first t)) (error e (second t))
      end
  end.

(** [reader.read()] on a branch, by a reader that stops at the end. *)
Definition step_read (s : BranchState) : BranchState :=
  match seen s with
  | seen_nothing =>
      match queue s with
      | c :: rest => mkBranch rest (status s) (received s ++ [c]) (seen s)
      | [] =>
          match status s with
          | br_readable => s
          | br_closed => mkBranch [] (status s) (received s) seen_done
          | br_errored e => mkBranch [] (status s) (received s) (seen_error e)
          end
      end
  | _ => s
  end.

Definition step (a : Action) (t : State) : State :=
  match a with
  | produce => step_produce t
  | pull => step_pull t
  | read b => set_branch b (step_read (branch b t)) t
  end.

Definition run (schedule : list Action) (t : State) : State :=
  fold_left (fun t a => step a t) schedule t.

(** What the reader of a branch has got when it has been told the end:
    the chunks it read and how the stream ended. *)
Definition observed (b : Branch) (t : State) : option (ReadableStream A) :=
  match seen (branch b t) with
  | seen_nothing => None
  | seen_done => Some (mkStream (received (branch b t)) Closed)
  | seen_error e => Some (mkStream (received (branch b t)) (Errored e))
  end.

(** *** The invariant of the machine *)

(** The source part of the invariant: once the producer has closed or
    errored, nothing is left for it to enqueue, and an errored source has
    an empty queue. *)
Definition source_inv (s : ReadableStream A) (t : State) : Prop :=
  src_end t = ending s
  /\ match src_status t with
     | src_readable => True
     | src_close_requested => pending t = [] /\ src_end t = Closed
     | src_errored e =>
         pending t = [] /\ src_queue t = [] /\ src_end t = Errored e
     end.

(** The branch part: what the reader has received, what waits in the
    branch, what waits in the source and what the producer has still to
    enqueue make up the chunks of the stream, in this order; after an error
    the reader has a prefix of them. *)
Definition branch_inv (s : ReadableStream A) (t : State) (sb : BranchState) : Prop :=
  match status sb with
  | br_readable =>
      match src_status t with
      | src_errored _ =>
          exists rest, received sb ++ queue sb ++ rest = enqueued s
      | _ =>
          received sb ++ queue sb ++ src_queue t ++ pending t
          = enqueued s
      end
  | br_closed =>
      received sb ++ queue sb = enqueued s
      /\ src_status t = src_close_requested
      /\ src_queue t = []
  | br_errored e =>
      queue sb = []
      /\ (exists rest, received sb ++ rest = enqueued s)
      /\ src_status t = src_errored e
  end
  /\ match seen sb with
     | seen_nothing => True
     | seen_done => status sb = br_closed /\ queue sb = []
     | seen_error e => status sb = br_errored e
     end.

Definition tee_inv (s : ReadableStream A) (t : State) : Prop :=
  source_inv s t /\ branch_inv s t (first t) /\ branch_inv s t (second t).

(** What the pull loop does to one branch. *)
Definition pulled (t : State) (sb : BranchState) : BranchState :=
  match src_queue t with
  | c :: _ => enqueue c sb
  | [] =>
      match src_status t with
      | src_readable => sb
      | src_close_requested => close sb
      | src_errored e => error e sb
      end
  end.

End Machine.

Arguments BranchState A : clear implicits.
Arguments State A : clear implicits.

(** A schedule that lets the producer finish, drains the source and lets
    both readers read to the end, for a stream of [n] chunks. *)
Definition fair (n : nat) : list Action :=
  repeat produce (S n) ++ repeat pull (S n)
  ++ repeat (read branch1) (S n) ++ repeat (read branch2) (S n).

End Tee.

(** ** route.ts: POST /api/chat *)

Module Route.
Import Prisma.

(** [ChatRequestBody] *)
Record ChatRequestBody : Type := mkBody {
  chatId : string;
  userId : option string;
  body_system : option string;
  body_messages : list MessageInput;
  body_temperature : option Q;
  body_maxTokens : option Q;
  body_model : option string
}.

(** The lines written to the console. *)
Inductive LogEntry : Type :=
| log_saved (chatId provider : string) (latencyMs completionTokens : Z)
            (finishReason : option string)
| log_collect_error (e : Error)
| log_save_failed (e : Error)
| log_unexpected (e : Error).

(** The JSON bodies of the error responses, and the streamed body: what
    the client has read from its branch. *)
Inductive ResponseBody : Type :=
| json_error (error : string)
| json_validation (error : string) (details : list ZodIssue)
| json_message (error message : string)
| json_api_error (error message provider : string) (statusCode : option Z)
| stream_body (delivered : list StreamChunk) (seen : Tee.Seen).

Record Response : Type := mkResponse {
  status : Z;
  headers : list (string * string);
  body : ResponseBody
}.

(** The two readings of the clock: at the start of the request and when
    the collector has read its branch to the end. *)
Record Clock : Type := mkClock {
  startTime : Z;
  collectedTime : Z
}.

(** The local variables of the collector's loop. *)
Record Collected : Type := mkCollected {
  assistantContent : string;
  completionTokens : Z;
  finishReason : option string
}.

(** One turn of the loop, for the chunk [value] just read. *)
Definition collect_step (acc : Collected) (value : StreamChunk) : Collected :=
  if done value then
    {| assistantContent := assistantContent acc;
       completionTokens := JS.or_zero (Types.completionTokens <$> usage value);
       finishReason := JS.or_null (Types.finishReason value) |}
  else
    {| assistantContent := (assistantContent acc ++ chunk_content value)%string;
       completionTokens := completionTokens acc;
       finishReason := finishReason acc |}.

Definition collect (chunks : list StreamChunk) : Collected :=
  fold_left collect_step chunks (mkCollected "" 0 None).

(** The first step of the transaction: "ensure chat exists or create
    it".  The chat found or created is returned (the source keeps its id
    only). *)
Definition ensure_chat (S : Storage) (chatId : string) (userId : option string)
  (userMessageContent : string) : Tx Chat :=
  (let* chat := findUnique S chatId in
   match chat with
   | Some c => ret c
   | None =>
       create S (Some chatId) userId
         (Some (JS.substring0 100 userMessageContent))
   end)%tx.

(** The body of the transaction. *)
Definition save (S : Storage) (chatId : string) (userId : option string)
  (userMessageContent : string) (c : Collected) : Tx unit :=
  (do ensure_chat S chatId userId userMessageContent then
   do createMessage S chatId "user" userMessageContent None then
   do createMessage S chatId "assistant" (assistantContent c)
        (Some (completionTokens c)) then
   do update S chatId then
   ret tt)%tx.

(** The calls the body makes when none throws; [existed] tells whether
    the chat was there. *)
Definition save_calls (chatId : string) (userId : option string)
  (userMessageContent : string) (c : Collected) (existed : bool) : list DbCall :=
  chat_findUnique chatId
  :: (if existed then []
      else [chat_create (Some chatId) userId
                        (Some (JS.substring0 100 userMessageContent))])
  ++ [ message_create chatId "user" userMessageContent None;
       message_create chatId "assistant" (assistantContent c)
                      (Some (completionTokens c));
       chat_update chatId ].

(** The tables after the four effects: the chat is there (the one found,
    or a new one titled with the start of the user's message), the two
    messages are appended, and [updatedAt] is the time of the last call. *)
Definition committed (S : Storage) (chatId : string) (userId : option string)
  (userMessageContent : string) (c : Collected) (db : Db) : Db :=
  let k := match chats db !! chatId with Some _ => 1%nat | None => 2%nat end in
  let found :=
    match chats db !! chatId with
    | Some ch => ch
    | None =>
        mkChat chatId userId (Some (JS.substring0 100 userMessageContent))
               (now S 1) (now S 1)
    end in
  mkDb (<[chatId := mkChat (chat_id found) (chat_userId found) (chat_title found)
                           (createdAt found) (now S (k + 2))]> (chats db))
       (rows db
        ++ [ mkRow chatId "user" userMessageContent None (now S k);
             mkRow chatId "assistant" (assistantContent c)
                   (Some (completionTokens c)) (now S (k + 1)) ]).

Record Saved : Type := mkSaved {
  result : Result Error unit;
  logs : list LogEntry;
  db_after : Db;
  db_calls : list DbCall
}.

(** [collectAndSaveResponse]: [stream] is what the reader gets from its
    branch, read to the end. *)
Definition collectAndSaveResponse (S : Storage) (clock : Clock)
  (stream : ReadableStream StreamChunk) (chatId : string) (userId : option string)
  (userMessageContent : string) (provider : string) (db : Db) : Saved :=
  match ending stream with
  | Errored e => mkSaved (Err e) [log_collect_error e] db []
  | Closed =>
      let c := collect (enqueued stream) in
      let latencyMs := collectedTime clock - startTime clock in
      match transaction S (save S chatId userId userMessageContent c) db with
      | (db', Ok _, calls) =>
          mkSaved (Ok tt)
                  [log_saved chatId provider latencyMs (completionTokens c)
                             (finishReason c)]
                  db' calls
      | (db', Err e, calls) => mkSaved (Err e) [log_collect_error e] db' calls
      end
  end.

(** What a request did: the response, the adapter and network events, the
    console, the tables afterwards and the calls to the engine. *)
Record Outcome : Type := mkOutcome {
  response : Response;
  events : list LLM.Event;
  console : list LogEntry;
  tables : Db;
  engine_calls : list DbCall
}.

(** [error.statusCode || 500] *)
Definition status_or_500 (statusCode : option Z) : Z :=
  match statusCode with
  | Some c => if c =? 0 then 500 else c
  | None => 500
  end.

Definition error_message (e : Error) : string :=
  match e with
  | LLMProviderError m => m
  | LLMAPIError m _ _ => m
  | ZodErr _ => "Validation failed"
  | ChatNotFoundError id => ("Chat with id " ++ id ++ " not found")%string
  | InvalidMessageRoleError r =>
      ("Invalid message role: " ++ r ++ ". Must be one of: user, assistant, system")%string
  | StorageError c => c
  | OtherError m => m
  end.

(** The [catch] of [POST]. *)
Definition on_error (e : Error) : Response * list LogEntry :=
  match e with
  | ZodErr z =>
      (mkResponse 400 [] (json_validation "Validation error" (errors z)), [])
  | LLMProviderError m =>
      (mkResponse 503 [] (json_message "Provider configuration error" m), [])
  | LLMAPIError m p sc =>
      (mkResponse (status_or_500 sc) [] (json_api_error "LLM API error" m p sc), [])
  | _ =>
      (mkResponse 500 []
         (json_message "Internal server error" (error_message e)),
       [log_unexpected e])
  end.

Definition failed (e : Error) (evs : list LLM.Event) (db : Db) : Outcome :=
  let '(r, l) := on_error e in mkOutcome r evs l db [].

(** [POST]: [request_json] is what [request.json()] gives, [schedule] the
    order in which the stream, the pull loop of the duplication and the
    two readers advance after the handler has returned. *)
Definition POST (env : Env) (net : LLM.Network) (S : Storage) (clock : Clock)
  (schedule : list Tee.Action)
  (request_json : Result Error ChatRequestBody) (db : Db) : Outcome :=
  match request_json with
  | Err e => failed e [] db
  | Ok b =>
      match ChatSchema_parse
              {| in_system := body_system b;
                 in_messages := body_messages b;
                 in_stream := Some true;
                 in_temperature := body_temperature b;
                 in_maxTokens := body_maxTokens b;
                 in_model := body_model b |} with
      | Err z => failed (ZodErr z) [] db
      | Ok validated =>
          match last (req_messages validated) with
          | Some userMessage =>
              if MessageRole_eqb (role userMessage) user then
                match LLM.getCurrentProviderName env with
                | Err e => failed e [] db
                | Ok provider =>
                    match LLM.chatStream env net (to_input validated) with
                    | (Err e, evs) => failed e evs db
                    | (Ok llmStream, evs) =>
                        let t := Tee.run schedule (Tee.tee llmStream) in
                        let clientStream := Tee.branch Tee.branch1 t in
                        let resp :=
                          mkResponse 200
                            [("Content-Type", "text/event-stream");
                             ("Cache-Control", "no-cache, no-transform");
                             ("Connection", "keep-alive");
                             ("X-Provider", provider)]
                            (stream_body (Tee.received clientStream)
                                         (Tee.seen clientStream)) in
                        match Tee.observed Tee.branch2 t with
                        | None => mkOutcome resp evs [] db []
                        | Some collectorStream =>
                            let s := collectAndSaveResponse S clock collectorStream
                                       (chatId b) (userId b)
                                       (content userMessage) provider db in
                            mkOutcome resp evs
                              (logs s ++
                               match result s with
                               | Ok _ => []
                               | Err e => [log_save_failed e]
                               end)
                              (db_after s) (db_calls s)
                        end
                    end
                end
              else
                mkOutcome (mkResponse 400 [] (json_error "Last message must be from user"))
                          [] [] db []
          | None =>
              mkOutcome (mkResponse 400 [] (json_error "Last message must be from user"))
                        [] [] db []
          end
      end
  end.

End Route.

(** ** Properties named by the specification *)

Module Spec.

(** "one of the three recognized roles" *)
Definition recognized (r : string) : Prop :=
  r = "user" \/ r = "assistant" \/ r = "system".

(** The conditions of the request validator: [messages] is non-empty,
    every role is recognized, [temperature], if present, is within
    [0, 2], and [maxTokens], if present, is positive. *)
Definition well_formed (input : ChatRequestInput) : Prop :=
  in_messages input <> []
  /\ Forall (fun m => recognized (in_role m)) (in_messages input)
  /\ (forall t, in_temperature input = Some t -> (0 <= t /\ t <= 2)%Q)
  /\ (forall m, in_maxTokens input = Some m -> (0 < m)%Q).

(** "the Chunk marked isFinal = true carries complete usage, with
    totalTokens = promptTokens + completionTokens" *)
Definition final_usage_complete (s : ReadableStream StreamChunk) : Prop :=
  forall c, In c (enqueued s) -> done c = true ->
    exists u, usage c = Some u
              /\ totalTokens u = promptTokens u + completionTokens u.

(** The text of a generation: the content of the chunks that are not
    final, in order. *)
Definition text_of (chunks : list StreamChunk) : string :=
  fold_right String.append ""
             (map chunk_content (List.filter (fun c => negb (done c)) chunks)).

(** The final chunk of a generation: the last one marked [done]. *)
Definition final_chunk (chunks : list StreamChunk) : option StreamChunk :=
  last (List.filter done chunks).

End Spec.

(** ** Concrete runs

    A small world to run the definitions in: an OpenAI backend that
    streams "He", "llo" and a finish reason without usage, one that goes on
    with the chunk that has the usage, one that fails after "He" and
    "llo", an Anthropic backend that streams the same text and reports 3
    input and 2 output tokens, an engine that never fails, and empty
    tables. *)

Module Examples.
Import Prisma Route.

Definition openai_chunks : list OpenAI.CompletionChunk :=
  [ OpenAI.mkCompletionChunk [OpenAI.mkChunkChoice (Some "He") None] "gpt-4o-mini" None;
    OpenAI.mkCompletionChunk [OpenAI.mkChunkChoice (Some "llo") None] "gpt-4o-mini" None;
    OpenAI.mkCompletionChunk [OpenAI.mkChunkChoice None (Some "stop")] "gpt-4o-mini" None ].

Definition openai_backend : OpenAI.Backend :=
  OpenAI.mkBackend
    (fun _ => Ok (mkIter openai_chunks None))
    (fun _ => Err (APIError "unavailable" (Some 503))).

(** An OpenAI backend whose last chunk reports a total that is not the
    sum of the two other counts. *)
Definition openai_backend_total : OpenAI.Backend :=
  OpenAI.mkBackend
    (fun _ =>
       Ok (mkIter
             [ OpenAI.mkCompletionChunk [OpenAI.mkChunkChoice (Some "Hi") (Some "stop")]
                 "gpt-4o-mini" (Some (OpenAI.mkCompletionUsage 10 3 0)) ]
             None))
    (fun _ => Err (APIError "unavailable" (Some 503))).

(** What the OpenAI backend streams when it is asked for the usage
    ([stream_options: { include_usage: true }]): the text, the chunk with
    the finish reason, and then one more chunk, without choices, that
    carries the usage of the whole request; the chunks before it have
    none. *)
Definition openai_chunks_usage_last : list OpenAI.CompletionChunk :=
  openai_chunks
  ++ [ OpenAI.mkCompletionChunk [] "gpt-4o-mini"
         (Some (OpenAI.mkCompletionUsage 8 2 10)) ].

Definition openai_backend_usage_last : OpenAI.Backend :=
  OpenAI.mkBackend
    (fun _ => Ok (mkIter openai_chunks_usage_last None))
    (fun _ => Err (APIError "unavailable" (Some 503))).


Definition anthropic_message : Anthropic.AMessage :=
  Anthropic.mkAMessage [Anthropic.text_block "Hello"] "claude-3-5-sonnet-20241022"
                       (Anthropic.mkUsage 3 2) (Some "end_turn").

Definition anthropic_events : list Anthropic.StreamEvent :=
  [ Anthropic.other_event;
    Anthropic.content_block_delta (Anthropic.text_delta "He");
    Anthropic.content_block_delta (Anthropic.text_delta "llo");
    Anthropic.message_delta (Some 2);
    Anthropic.message_stop ].

Definition anthropic_backend : Anthropic.Backend :=
  Anthropic.mkBackend
    (fun _ => Ok anthropic_message)
    (fun _ => Ok (Anthropic.mkMessageStream (mkIter anthropic_events None)
                                            (Ok anthropic_message))).

Definition net : LLM.Network := LLM.mkNetwork openai_backend anthropic_backend.

Definition net_usage_last : LLM.Network :=
  LLM.mkNetwork openai_backend_usage_last anthropic_backend.


Definition env_openai : Env := mkEnv None (Some "sk-test") None None None.
Definition env_anthropic : Env :=
  mkEnv (Some "Anthropic") None None (Some "sk-ant-test") None.
Definition env_none : Env := mkEnv None None None None None.

Definition hi : ChatRequestInput :=
  mkChatRequestInput None [mkMessageInput "user" "hi"] None None None None.

Definition body_hi : ChatRequestBody :=
  mkBody "c1" None None [mkMessageInput "user" "hi"] None None None.

Definition body_assistant_last : ChatRequestBody :=
  mkBody "c1" None None
         [mkMessageInput "user" "hi"; mkMessageInput "assistant" "Hello"]
         None None None.

Definition engine : Storage :=
  mkStorage (fun _ => false) (fun n => 1000 + Z.of_nat n) (fun _ => "generated").

(** An engine whose fourth call throws. *)
Definition engine_failing : Storage :=
  mkStorage (fun n => (n =? 3)%nat) (fun n => 1000 + Z.of_nat n) (fun _ => "generated").

Definition empty_db : Db := mkDb ∅ [].

Definition clock : Clock := mkClock 0 5.

Definition hello_chunks : list StreamChunk :=
  [ mkStreamChunk "He" false None None None;
    mkStreamChunk "llo" false None None None;
    mkStreamChunk "" true (Some "m") (Some (mkTokenUsage 3 2 5)) (Some "stop") ].

End Examples.

(** ** chatRepo.ts: the other functions of the repository *)

Module Repository.
Import Prisma.

(** [CreateMessageInput]; the role is whatever string arrives at run
    time. *)
Record CreateMessageInput : Type := mkCreateMessageInput {
  role : string;
  content : string;
  tokens : option Z
}.

(** [TokenTotals] *)
Record TokenTotals : Type := mkTokenTotals {
  userTokens : Z;
  assistantTokens : Z;
  systemTokens : Z;
  totalTokens : Z
}.

(** [validateMessageRole] *)
Definition validateMessageRole (role : string) : Result Error unit :=
  if existsb (String.eqb role) ["user"; "assistant"; "system"] then Ok tt
  else Err (InvalidMessageRoleError role).

Definition throw {A} (e : Error) : Tx A := fun st => (st, Err e).

(** [appendMessage]: the three calls are made outside a transaction. *)
Definition appendMessage (S : Storage) (chatId : string)
  (messageInput : CreateMessageInput) : Tx MessageRow :=
  match validateMessageRole (role messageInput) with
  | Err e => throw e
  | Ok _ =>
      (let* chatExists := findUnique S chatId in
       match chatExists with
       | None => throw (ChatNotFoundError chatId)
       | Some _ =>
           let* message := createMessage S chatId (role messageInput)
                             (content messageInput) (tokens messageInput) in
           do update S chatId then
           ret message
       end)%tx
  end.

(** One turn of the loop of [computeTokenTotals]. *)
Definition add_tokens (totals : TokenTotals) (message : MessageRow) : TokenTotals :=
  let tokens := default 0 (row_tokens message) in
  let by_role :=
    if String.eqb (row_role message) "user" then
      mkTokenTotals (userTokens totals + tokens) (assistantTokens totals)
                    (systemTokens totals) (totalTokens totals)
    else if String.eqb (row_role message) "assistant" then
      mkTokenTotals (userTokens totals) (assistantTokens totals + tokens)
                    (systemTokens totals) (totalTokens totals)
    else if String.eqb (row_role message) "system" then
      mkTokenTotals (userTokens totals) (assistantTokens totals)
                    (systemTokens totals + tokens) (totalTokens totals)
    else totals in
  mkTokenTotals (userTokens by_role) (assistantTokens by_role)
                (systemTokens by_role) (totalTokens by_role + tokens).

Definition sum_tokens (messages : list MessageRow) : TokenTotals :=
  fold_left add_tokens messages (mkTokenTotals 0 0 0 0).

(** [computeTokenTotals] *)
Definition computeTokenTotals (S : Storage) (chatId : string) : Tx TokenTotals :=
  (let* chat := findUnique S chatId in
   match chat with
   | None => throw (ChatNotFoundError chatId)
   | Some _ => fun st => (st, Ok (sum_tokens (messages_of (st_db st) chatId)))
   end)%tx.

(** [getChatById] *)
Definition getChatById (S : Storage) (chatId : string)
  : Tx (option ChatRepo.ChatWithMessages) :=
  (let* chat := findUnique S chatId in
   fun st =>
     (st, Ok ((fun c => ChatRepo.mkChatWithMessages c
                          (orderByCreatedAt (messages_of (st_db st) chatId)))
              <$> chat)))%tx.

(** [prisma.chat.delete({ where: { id } })]: one call of the engine;
    the messages of the chat go with it (the relation of [Message] to
    [Chat] is declared [onDelete: Cascade]). *)
Definition chat_delete (S : Storage) (id : string) (db : Db)
  : Db * Result Error Chat :=
  if fails S 0 then (db, Err (StorageError "engine"))
  else match chats db !! id with
       | None => (db, Err (StorageError "P2025"))
       | Some c =>
           (mkDb (delete id (chats db))
                 (List.filter (fun r => negb (String.eqb (row_chatId r) id)) (rows db)),
            Ok c)
       end.

(** [deleteChat]: whatever the engine throws is replaced by
    [ChatNotFoundError]. *)
Definition deleteChat (S : Storage) (chatId : string) (db : Db)
  : Db * Result Error Chat :=
  match chat_delete S chatId db with
  | (db', Ok c) => (db', Ok c)
  | (db', Err _) => (db', Err (ChatNotFoundError chatId))
  end.

(** [orderBy: { updatedAt: "desc" }] *)
Definition newer_first (a b : Chat) : Prop := updatedAt b <= updatedAt a.

#[global] Instance newer_first_dec (a b : Chat) : Decision (newer_first a b).
Proof. unfold newer_first. apply _. Defined.

(** A chat of the list, with the number of its messages ([_count]). *)
Record ChatWithCount : Type := mkChatWithCount {
  listed : Chat;
  message_count : nat
}.

(** [getChatsByUserId]: one [findMany]; the chats of the user, the most
    recently updated first, at most [limit] of them (50 when [limit] is
    omitted). *)
Definition getChatsByUserId (S : Storage) (userId : string) (limit : option nat)
  (db : Db) : Result Error (list ChatWithCount) :=
  if fails S 0 then Err (StorageError "engine")
  else
    let mine :=
      List.filter (fun c => bool_decide (chat_userId c = Some userId))
                  (snd <$> map_to_list (chats db)) in
    Ok ((fun c => mkChatWithCount c (length (messages_of db (chat_id c))))
        <$> take (default 50%nat limit) (merge_sort newer_first mine)).

End Repository.

(** ** lib/chat.ts *)

Module ChatLib.
Import Prisma.

(** [SaveChatMessage] *)
Record SaveChatMessage : Type := mkSaveChatMessage {
  role : string;
  content : string
}.

(** [title || messages[0]?.content.slice(0, 50) || "New Chat"] *)
Definition title_of (title : option string) (messages : list SaveChatMessage)
  : string :=
  JS.or_string title
    (JS.or_string (JS.substring0 50 <$> (content <$> head messages)) "New Chat").

(** The rows of [message.createMany]: one per message, in order, all at
    the time of the call.  The ids are generated, so [skipDuplicates]
    finds nothing to skip. *)
Definition rows_of (chatId : string) (messages : list SaveChatMessage) (time : Z)
  : list MessageRow :=
  (fun msg => mkRow chatId (role msg) (content msg) None time) <$> messages.

(** [saveChat]: a transaction of [findUnique], [create] when the chat is
    not there, and [createMany]; the calls are numbered from 0 and the
    commit comes last.  When a call or the commit throws, the tables are
    what they were. *)
Definition saveChat (S : Storage) (chatId : string)
  (messages : list SaveChatMessage) (title userId : option string) (db : Db)
  : Db * Result Error unit :=
  if fails S 0 then (db, Err (StorageError "engine"))
  else
    let createMany (n : nat) (db1 : Db) : Db * Result Error unit :=
      if fails S n then (db, Err (StorageError "engine"))
      else if fails S (Datatypes.S n) then (db, Err (StorageError "commit"))
           else (mkDb (chats db1) (rows db1 ++ rows_of chatId messages (now S n)),
                 Ok tt) in
    match chats db !! chatId with
    | Some _ => createMany 1%nat db
    | None =>
        if fails S 1 then (db, Err (StorageError "engine"))
        else
          createMany 2%nat
            (mkDb (<[chatId := mkChat chatId userId (Some (title_of title messages))
                                       (now S 1) (now S 1)]> (chats db))
                  (rows db))
    end.


End ChatLib.

(** ** index.ts: the helpers on streams *)

Module LLMStream.

(** The result of [collectStream]. *)
Record Collected : Type := mkCollected {
  content : string;
  usage : option TokenUsage;
  model : option string
}.

(** One turn of the loop of [collectStream]. *)
Definition collect_step (acc : Collected) (chunk : StreamChunk) : Collected :=
  if done chunk then
    mkCollected (content acc) (Types.usage chunk) (chunk_model chunk)
  else
    mkCollected (content acc ++ chunk_content chunk)%string (usage acc)
                (if JS.truthy (chunk_model chunk) then chunk_model chunk
                 else model acc).

(** [collectStream] over [streamToAsyncIterable]: the stream is read to
    its end; an errored stream makes the promise reject. *)
Definition collectStream (stream : ReadableStream StreamChunk)
  : Result Error Collected :=
  match ending stream with
  | Errored e => Err e
  | Closed => Ok (fold_left collect_step (enqueued stream) (mkCollected "" None None))
  end.

End LLMStream.

(** ** What a backend sent

    The text and the end markers of a backend's stream, to compare with
    what an adapter passes on. *)

Module Sent.

(** [chunk.choices[0]?.delta?.content], nothing when it is missing. *)
Definition openai_text (chunk : OpenAI.CompletionChunk) : string :=
  match head (OpenAI.choices chunk) with
  | Some choice => default "" (OpenAI.delta_content choice)
  | None => ""
  end.

Definition openai_finished (chunk : OpenAI.CompletionChunk) : bool :=
  JS.truthy (head (OpenAI.choices chunk) ≫= OpenAI.finish_reason).

Definition anthropic_text (event : Anthropic.StreamEvent) : string :=
  match event with
  | Anthropic.content_block_delta (Anthropic.text_delta text) => text
  | _ => ""
  end.

Definition anthropic_is_text (event : Anthropic.StreamEvent) : bool :=
  match event with
  | Anthropic.content_block_delta (Anthropic.text_delta _) => true
  | _ => false
  end.

Definition anthropic_stopped (event : Anthropic.StreamEvent) : bool :=
  match event with
  | Anthropic.message_stop => true
  | _ => false
  end.

Definition concat_text (l : list string) : string := fold_right String.append "" l.

(** The request of a call to the Anthropic backend. *)
Definition anthropic_params (c : Anthropic.NetCall) : Anthropic.CreateParams :=
  match c with
  | Anthropic.call_create p => p
  | Anthropic.call_stream p => p
  end.

(** An error that an adapter may let out: an [LLMAPIError] in its own
    name, Zod's error, or an exception that is none of the program's. *)
Definition adapter_error (p : LLM.LLMProvider) (e : Error) : Prop :=
  match e with
  | LLMAPIError _ provider _ => provider = LLM.getName p
  | ZodErr _ => True
  | OtherError _ => True
  | _ => False
  end.

End Sent.

(** ** What the tables hold

    Sums over stored messages, to state what the repository computes. *)

Module Stored.
Import Prisma.

Definition has_role (role : string) (r : MessageRow) : bool :=
  String.eqb (row_role r) role.

Definition other_role (r : MessageRow) : bool :=
  negb (has_role "user" r || has_role "assistant" r || has_role "system" r).

(** The tokens of the messages that satisfy [p]; a message without a
    count adds nothing. *)
Definition tokens_where (p : MessageRow -> bool) (messages : list MessageRow) : Z :=
  fold_right Z.add 0
    (map (fun r => default 0 (row_tokens r)) (List.filter p messages)).

End Stored.

(** * Theorems *)

(** ** The request validator *)

Section Validator.

Lemma role_parse_name (s : string) (r : MessageRole) :
  MessageRoleSchema_parse s = Some r -> role_name r = s.
Proof.
  unfold MessageRoleSchema_parse.
  destruct (String.eqb_spec s "user") as [-> | _]; [intros [= <-]; reflexivity |].
  destruct (String.eqb_spec s "assistant") as [-> | _]; [intros [= <-]; reflexivity |].
  destruct (String.eqb_spec s "system") as [-> | _]; [intros [= <-]; reflexivity |].
  discriminate.
Qed.

Lemma role_parse_recognized (s : string) :
  Spec.recognized s <-> exists r, MessageRoleSchema_parse s = Some r.
Proof.
  split.
  - intros [-> | [-> | ->]]; eexists; reflexivity.
  - intros [r Hr]. apply role_parse_name in Hr. subst s.
    destruct r; unfold Spec.recognized; simpl; auto.
Qed.

Lemma role_parse_role_name (r : MessageRole) :
  MessageRoleSchema_parse (role_name r) = Some r.
Proof. destruct r; reflexivity. Qed.

Lemma parse_messages_issues (ms : list MessageInput) :
  forall i, fst (parse_messages i ms) = []
            <-> Forall (fun m => Spec.recognized (in_role m)) ms.
Proof.
  induction ms as [| m rest IH]; intros i; simpl.
  - split; [constructor | reflexivity].
  - specialize (IH (S i)).
    destruct (parse_messages (S i) rest) as [issues parsed]; simpl in IH.
    destruct (MessageRoleSchema_parse (in_role m)) as [r |] eqn:Hr; simpl.
    + rewrite IH. split.
      * intros H. constructor; [| exact H].
        apply role_parse_recognized. eauto.
      * intros H. inversion H; assumption.
    + split; [discriminate |].
      intros H. inversion H as [| ? ? Hm _]; subst.
      apply role_parse_recognized in Hm. destruct Hm as [r Hm]. congruence.
Qed.

Lemma parse_messages_parsed (ms : list MessageInput) :
  forall i, fst (parse_messages i ms) = [] ->
    map (fun m => mkMessageInput (role_name (role m)) (content m))
        (snd (parse_messages i ms)) = ms.
Proof.
  induction ms as [| m rest IH]; intros i; simpl; [reflexivity |].
  specialize (IH (S i)).
  destruct (parse_messages (S i) rest) as [issues parsed]; simpl in IH.
  destruct (MessageRoleSchema_parse (in_role m)) as [r |] eqn:Hr; simpl.
  - intros H. rewrite (IH H). apply role_parse_name in Hr.
    destruct m as [ro co]; simpl in *. subst ro. reflexivity.
  - discriminate.
Qed.

Lemma messages_min_issues_nil (ms : list MessageInput) :
  messages_min_issues ms = [] <-> ms <> [].
Proof.
  unfold messages_min_issues. destruct ms; simpl; split; congruence.
Qed.

Lemma temperature_issues_nil (t : Q) :
  temperature_issues t = [] <-> (0 <= t /\ t <= 2)%Q.
Proof.
  unfold temperature_issues.
  destruct (Qle_bool 0 t) eqn:H0; destruct (Qle_bool t 2) eqn:H2; simpl;
    split; try discriminate; try reflexivity.
  - intros _. split; apply Qle_bool_iff; assumption.
  - intros [_ H]. apply Qle_bool_iff in H. congruence.
  - intros [H _]. apply Qle_bool_iff in H. congruence.
  - intros [H _]. apply Qle_bool_iff in H. congruence.
Qed.

Lemma maxTokens_issues_nil (m : Q) :
  maxTokens_issues m = [] <-> (0 < m)%Q.
Proof.
  unfold maxTokens_issues. destruct (Qle_bool m 0) eqn:H; split;
    try discriminate; try reflexivity.
  - intros Hlt. apply Qle_bool_iff in H. exfalso.
    exact (Qlt_not_le _ _ Hlt H).
  - intros _. apply Qnot_le_lt. intros Hle.
    apply Qle_bool_iff in Hle. congruence.
Qed.

Lemma optional_issues_nil {A} (f : A -> list ZodIssue) (P : A -> Prop)
  (o : option A) :
  (forall v, f v = [] <-> P v) ->
  optional_issues f o = [] <-> (forall v, o = Some v -> P v).
Proof.
  intros Hf. destruct o as [v |]; simpl.
  - rewrite Hf. split; [intros H ? [= <-]; exact H | intros H; apply H; reflexivity].
  - split; [intros _ ? [=] | reflexivity].
Qed.

(** The list of issues is empty exactly for the well-formed inputs. *)
Lemma issues_nil_well_formed (input : ChatRequestInput) :
  messages_min_issues (in_messages input)
  ++ fst (parse_messages 0 (in_messages input))
  ++ optional_issues temperature_issues (in_temperature input)
  ++ optional_issues maxTokens_issues (in_maxTokens input) = []
  <-> Spec.well_formed input.
Proof.
  unfold Spec.well_formed.
  rewrite <- messages_min_issues_nil, <- (parse_messages_issues _ 0%nat).
  rewrite <- (optional_issues_nil _ _ _ temperature_issues_nil).
  rewrite <- (optional_issues_nil _ _ _ maxTokens_issues_nil).
  split.
  - intros H. apply app_eq_nil in H as [H1 H].
    apply app_eq_nil in H as [H2 H]. apply app_eq_nil in H as [H3 H4]. auto.
  - intros (H1 & H2 & H3 & H4). rewrite H1, H2, H3, H4. reflexivity.
Qed.

(** A parsed request has the messages of the input. *)
Lemma parse_keeps_messages (input : ChatRequestInput) (request : ChatRequest) :
  ChatSchema_parse input = Ok request ->
  in_messages (to_input request) = in_messages input.
Proof.
  pose proof (parse_messages_parsed (in_messages input) 0%nat) as Hparsed.
  unfold ChatSchema_parse.
  destruct (parse_messages 0 (in_messages input)) as [role_issues parsed].
  simpl in Hparsed.
  destruct (messages_min_issues (in_messages input) ++ role_issues
            ++ optional_issues temperature_issues (in_temperature input)
            ++ optional_issues maxTokens_issues (in_maxTokens input))
    as [| issue issues] eqn:Hissues; [| discriminate].
  intros [= <-]. simpl. apply Hparsed.
  apply app_eq_nil in Hissues as [_ H]. apply app_eq_nil in H as [H _]. exact H.
Qed.

(** C9: the validator succeeds exactly on the well-formed requests; on
    success the optional fields that were omitted have their defaults
    ([temperature] is 0.7, [stream] is false) and everything given is
    kept; on any violation it throws a [ZodError] that lists at least one
    issue. *)
Theorem ChatSchema_parse_spec (input : ChatRequestInput) :
  (Spec.well_formed input <-> exists request, ChatSchema_parse input = Ok request)
  /\ (forall request, ChatSchema_parse input = Ok request ->
        req_temperature request = default (7 # 10)%Q (in_temperature input)
        /\ req_stream request = default false (in_stream input)
        /\ req_system request = in_system input
        /\ req_maxTokens request = in_maxTokens input
        /\ req_model request = in_model input
        /\ in_messages (to_input request) = in_messages input)
  /\ (~ Spec.well_formed input ->
        exists issues, issues <> []
                       /\ ChatSchema_parse input = Err (mkZodError issues)).
Proof.
  pose proof (issues_nil_well_formed input) as Hwf.
  pose proof (parse_messages_parsed (in_messages input) 0%nat) as Hparsed.
  unfold ChatSchema_parse.
  destruct (parse_messages 0 (in_messages input)) as [role_issues parsed].
  simpl in Hwf, Hparsed.
  destruct (messages_min_issues (in_messages input) ++ role_issues
            ++ optional_issues temperature_issues (in_temperature input)
            ++ optional_issues maxTokens_issues (in_maxTokens input))
    as [| issue issues] eqn:Hissues.
  - assert (Hnil : role_issues = []).
    { apply app_eq_nil in Hissues as [_ H]. apply app_eq_nil in H as [H _]. exact H. }
    split; [| split].
    + split; [intros _; eexists; reflexivity | intros _; apply Hwf; reflexivity].
    + intros request [= <-]. simpl. repeat split; try reflexivity.
      apply Hparsed, Hnil.
    + intros Hn. exfalso. apply Hn, Hwf. reflexivity.
  - split; [| split].
    + split; [intros H; apply Hwf in H; discriminate | intros [? [=]]].
    + intros ? [=].
    + intros _. eexists. split; [| reflexivity]. discriminate.
Qed.

(** Three runs of the validator: the defaults, the empty list, and a
    request with three problems, reported in the order of the fields. *)
Example parse_defaults :
  ChatSchema_parse Examples.hi
  = Ok (mkChatRequest None [mkMessage user "hi"] false (7 # 10)%Q None None).
Proof. reflexivity. Qed.

Example parse_no_messages :
  ChatSchema_parse (mkChatRequestInput None [] None None None None)
  = Err (mkZodError [mkZodIssue [Key "messages"] too_small]).
Proof. reflexivity. Qed.

Example parse_three_issues :
  ChatSchema_parse
    (mkChatRequestInput None
       [mkMessageInput "user" "hi"; mkMessageInput "tool" "x"]
       None (Some 3%Q) (Some 0%Q) None)
  = Err (mkZodError
           [ mkZodIssue [Key "messages"; Idx 1; Key "role"] invalid_enum_value;
             mkZodIssue [Key "temperature"] too_big;
             mkZodIssue [Key "maxTokens"] too_small ]).
Proof. reflexivity. Qed.

End Validator.

(** ** Token usage on the final chunk *)

Section FinalUsage.

Lemma anthropic_process_final_usage (final : Result SdkError Anthropic.AMessage)
  (evs : list Anthropic.StreamEvent) :
  forall usage_var c,
    In c (fst (Anthropic.process final evs usage_var)) -> done c = true ->
    exists u, usage c = Some u
              /\ totalTokens u = promptTokens u + completionTokens u.
Proof.
  induction evs as [| ev rest IH]; intros usage_var c; simpl; [tauto |].
  destruct ev as [[text |] | [out_tokens |] | |].
  - specialize (IH usage_var c).
    destruct (Anthropic.process final rest usage_var) as [out exn]; simpl in *.
    intros [<- | Hin] Hdone; [discriminate | auto].
  - apply IH.
  - apply IH.
  - apply IH.
  - destruct final as [message | e]; simpl; [| tauto].
    specialize (IH (Some (Anthropic.usage_of (Anthropic.a_usage message))) c).
    destruct (Anthropic.process (Ok message) rest _) as [out exn]; simpl in *.
    intros [<- | Hin] Hdone; [| auto].
    simpl. eexists. split; reflexivity.
  - apply IH.
Qed.

Lemma anthropic_start_final_usage (backend : Anthropic.Backend)
  (params : Anthropic.CreateParams) :
  Spec.final_usage_complete (Anthropic.start backend params).
Proof.
  unfold Spec.final_usage_complete, Anthropic.start. intros c.
  destruct (Anthropic.messages_stream backend params) as [stream | e]; simpl; [| tauto].
  pose proof (anthropic_process_final_usage (Anthropic.finalMessage stream)
                (items (Anthropic.events stream)) None c) as H.
  destruct (Anthropic.process _ _ None) as [out exn]; simpl in H.
  destruct exn; simpl; exact H.
Qed.

Lemma openai_on_chunk_final (chunk : OpenAI.CompletionChunk) (c : StreamChunk) :
  In c (OpenAI.on_chunk chunk) -> done c = true ->
  JS.truthy (head (OpenAI.choices chunk) ≫= OpenAI.finish_reason) = true
  /\ usage c = OpenAI.usage_of <$> OpenAI.chunk_usage chunk.
Proof.
  unfold OpenAI.on_chunk. intros Hin Hdone.
  apply in_app_or in Hin as [Hin | Hin].
  - destruct (OpenAI.delta_content <$> head (OpenAI.choices chunk)) as [[text |] |];
      simpl in Hin; try tauto.
    destruct (negb (text =? "")%string); simpl in Hin; [| tauto].
    destruct Hin as [<- | []]. discriminate.
  - destruct (JS.truthy (head (OpenAI.choices chunk) ≫= OpenAI.finish_reason));
      simpl in Hin; [| tauto].
    destruct Hin as [<- | []]. split; reflexivity.
Qed.

(** Where the usage of a final chunk comes from: on a stream of the
    Anthropic adapter every chunk marked [done] carries usage with
    total = prompt + completion; on a stream of the OpenAI adapter the
    usage of a chunk marked [done], when it carries one, is that of the
    backend chunk that brought the finish reason, with its three counts
    unchanged. *)
Lemma final_chunk_usage (net : LLM.Network) (p : LLM.LLMProvider)
  (input : ChatRequestInput) (s : ReadableStream StreamChunk)
  (calls : list LLM.NetCall) (c : StreamChunk) :
  LLM.provider_chatStream net p input = (Ok s, calls) ->
  In c (enqueued s) -> done c = true ->
  match p with
  | LLM.anthropic_provider _ =>
      exists u, usage c = Some u
                /\ totalTokens u = promptTokens u + completionTokens u
  | LLM.openai_provider _ =>
      forall u, usage c = Some u ->
        exists params stream chunk backend_usage,
          OpenAI.create_stream (LLM.openai_backend net) params = Ok stream
          /\ In chunk (items stream)
          /\ JS.truthy (head (OpenAI.choices chunk) ≫= OpenAI.finish_reason) = true
          /\ OpenAI.chunk_usage chunk = Some backend_usage
          /\ promptTokens u = OpenAI.prompt_tokens backend_usage
          /\ completionTokens u = OpenAI.completion_tokens backend_usage
          /\ totalTokens u = OpenAI.total_tokens backend_usage
  end.
Proof.
  destruct p as [q | q]; simpl.
  - unfold OpenAI.chatStream.
    destruct (OpenAI.client q); [| intros [=]].
    destruct (ChatSchema_parse input) as [request | z]; [| intros [=]].
    intros [= <- _]. unfold OpenAI.start.
    match goal with
    | |- context [OpenAI.create_stream _ ?ps] => set (params := ps)
    end.
    destruct (OpenAI.create_stream (LLM.openai_backend net) params)
      as [stream | e] eqn:Hcreate; simpl; [| tauto].
    intros Hin Hdone u Hu. apply in_flat_map in Hin as (chunk & Hchunk & Hin).
    destruct (openai_on_chunk_final chunk c Hin Hdone) as [Hfin Husage].
    rewrite Husage in Hu.
    destruct (OpenAI.chunk_usage chunk) as [backend_usage |] eqn:Hb;
      [| discriminate].
    injection Hu as <-.
    exists params, stream, chunk, backend_usage. auto 10.
  - unfold Anthropic.chatStream.
    destruct (Anthropic.client q); [| intros [=]].
    destruct (ChatSchema_parse input) as [request | z]; [| intros [=]].
    intros [= <- _]. apply anthropic_start_final_usage.
Qed.

Lemma final_chunk_usage_witness :
  exists u, usage (mkStreamChunk "" true (Some "claude-3-5-sonnet-20241022")
                     (Some (mkTokenUsage 3 2 5)) (Some "stop")) = Some u
            /\ totalTokens u = promptTokens u + completionTokens u.
Proof.
  refine (final_chunk_usage Examples.net
            (LLM.anthropic_provider (Anthropic.new Examples.env_anthropic))
            Examples.hi _ _ _ _ _ _).
  - vm_compute. reflexivity.
  - simpl. right. right. left. reflexivity.
  - reflexivity.
Defined.

(** The usage of a final chunk of the OpenAI adapter is never taken from
    another backend chunk than the one with the finish reason: when that
    chunk has no usage, the final chunk has none, whatever the backend
    sends before or after it. *)
Lemma openai_usage_only_from_finish_chunk (backend : OpenAI.Backend)
  (p : OpenAI.OpenAIProvider) (input : ChatRequestInput)
  (s : ReadableStream StreamChunk) (calls : list OpenAI.CreateParams)
  (c : StreamChunk) :
  OpenAI.chatStream backend p input = (Ok s, calls) ->
  (forall params stream chunk,
      OpenAI.create_stream backend params = Ok stream ->
      In chunk (items stream) ->
      JS.truthy (head (OpenAI.choices chunk) ≫= OpenAI.finish_reason) = true ->
      OpenAI.chunk_usage chunk = None) ->
  In c (enqueued s) -> done c = true -> usage c = None.
Proof.
  unfold OpenAI.chatStream.
  destruct (OpenAI.client p); [| intros [=]].
  destruct (ChatSchema_parse input) as [request | z]; [| intros [=]].
  intros [= <- _] Hbackend. unfold OpenAI.start.
  match goal with
  | |- context [OpenAI.create_stream _ ?ps] => set (params := ps)
  end.
  destruct (OpenAI.create_stream backend params) as [stream | e] eqn:Hcreate;
    simpl; [| tauto].
  intros Hin Hdone. apply in_flat_map in Hin as (chunk & Hchunk & Hin).
  destruct (openai_on_chunk_final chunk c Hin Hdone) as [Hfin ->].
  rewrite (Hbackend params stream chunk Hcreate Hchunk Hfin). reflexivity.
Qed.

(** C1 fails on the OpenAI adapter.  Asked for the usage, the backend
    sends it in a last chunk without choices, after the chunk that has the
    finish reason; the adapter emits its final chunk at the finish
    reason, with the usage of that chunk, and enqueues nothing for the
    chunk that has the usage.  The stream it returns for such a backend
    has one chunk marked [done], the last one, and that chunk carries no
    usage: it is not the final chunk with complete usage of the claim. *)
Theorem openai_final_chunk_without_usage :
  exists s,
    fst (LLM.provider_chatStream Examples.net_usage_last
           (LLM.openai_provider (OpenAI.new Examples.env_openai)) Examples.hi)
    = Ok s
    /\ s = mkStream
             [ mkStreamChunk "He" false (Some "gpt-4o-mini") None None;
               mkStreamChunk "llo" false (Some "gpt-4o-mini") None None;
               mkStreamChunk "" true (Some "gpt-4o-mini") None (Some "stop") ]
             Closed
    /\ (exists final,
           Spec.final_chunk (enqueued s) = Some final /\ usage final = None)
    /\ ~ Spec.final_usage_complete s.
Proof.
  eexists. split; [vm_compute; reflexivity |]. split; [reflexivity |]. split.
  - eexists. split; reflexivity.
  - intros H.
    destruct (H (mkStreamChunk "" true (Some "gpt-4o-mini") None (Some "stop")))
      as (u & Hu & _).
    + simpl. auto.
    + reflexivity.
    + discriminate.
Qed.

(** The counts of the OpenAI backend are passed on as they are, the
    total included. *)
Example openai_total_passed_on :
  fst (OpenAI.chatStream Examples.openai_backend_total
         (OpenAI.new Examples.env_openai) Examples.hi)
  = Ok (mkStream
          [ mkStreamChunk "Hi" false (Some "gpt-4o-mini") None None;
            mkStreamChunk "" true (Some "gpt-4o-mini")
                          (Some (mkTokenUsage 10 3 0)) (Some "stop") ]
          Closed).
Proof. vm_compute. reflexivity. Qed.

End FinalUsage.

(** ** Adapters without a credential *)

Section Unconfigured.

Lemma openai_unconfigured (env : Env) :
  OpenAI.isConfigured (OpenAI.new env) = false ->
  OpenAI.client (OpenAI.new env) = None.
Proof.
  unfold OpenAI.isConfigured. destruct (OpenAI.client (OpenAI.new env)); congruence.
Qed.

Lemma anthropic_unconfigured (env : Env) :
  Anthropic.isConfigured (Anthropic.new env) = false ->
  Anthropic.client (Anthropic.new env) = None.
Proof.
  unfold Anthropic.isConfigured, Anthropic.new; simpl.
  destruct (JS.or_null (ANTHROPIC_API_KEY env)); congruence.
Qed.

(** C3, as the code has it: an adapter built without a credential fails
    in [chat] and in [chatStream] at once, with an [LLMAPIError] that names
    the provider and has no status, and nothing is sent to a backend. *)
Theorem unconfigured_adapter_fails (env : Env) (net : LLM.Network)
  (type : LLM.ProviderType) (input : ChatRequestInput) :
  LLM.isConfigured (LLM.getProviderByType env type) = false ->
  exists message,
    LLM.provider_chat net (LLM.getProviderByType env type) input
    = (Err (LLMAPIError message (LLM.getName (LLM.getProviderByType env type)) None), [])
    /\ LLM.provider_chatStream net (LLM.getProviderByType env type) input
       = (Err (LLMAPIError message (LLM.getName (LLM.getProviderByType env type)) None), []).
Proof.
  destruct type; simpl; intros H.
  - apply openai_unconfigured in H.
    unfold OpenAI.chat, OpenAI.chatStream. rewrite H. simpl.
    eexists. split; reflexivity.
  - apply anthropic_unconfigured in H.
    unfold Anthropic.chat, Anthropic.chatStream. rewrite H. simpl.
    eexists. split; reflexivity.
Qed.

Lemma unconfigured_adapter_fails_witness :
  exists message,
    LLM.provider_chat Examples.net
      (LLM.getProviderByType Examples.env_none LLM.openai) Examples.hi
    = (Err (LLMAPIError message "OpenAI" None), [])
    /\ LLM.provider_chatStream Examples.net
         (LLM.getProviderByType Examples.env_none LLM.openai) Examples.hi
       = (Err (LLMAPIError message "OpenAI" None), []).
Proof.
  apply (unconfigured_adapter_fails Examples.env_none Examples.net LLM.openai
           Examples.hi).
  reflexivity.
Defined.

(** The claim as stated fails: the error of an adapter without a
    credential is not the configuration error. *)
Lemma unconfigured_adapter_not_config_error :
  ~ (forall env net type input,
        LLM.isConfigured (LLM.getProviderByType env type) = false ->
        exists message,
          fst (LLM.provider_chat net (LLM.getProviderByType env type) input)
          = Err (LLMProviderError message)).
Proof.
  intros H.
  destruct (H Examples.env_none Examples.net LLM.openai Examples.hi eq_refl)
    as [message Hm].
  vm_compute in Hm. discriminate.
Qed.

(** The placeholder adapter behaves alike. *)
Lemma stub_unconfigured_fails (env : Env) (request : ChatRequest) :
  AnthropicStub.isConfigured (AnthropicStub.new env) = false ->
  AnthropicStub.chat (AnthropicStub.new env) request
  = (Err Anthropic.not_configured, [])
  /\ AnthropicStub.chatStream (AnthropicStub.new env) request
     = (Err Anthropic.not_configured, []).
Proof.
  unfold AnthropicStub.isConfigured, AnthropicStub.chat, AnthropicStub.chatStream.
  destruct (AnthropicStub.apiKey (AnthropicStub.new env)); [discriminate |].
  split; reflexivity.
Qed.

(** The configuration error comes from the selector: it refuses a
    provider that is not configured before any adapter method runs. *)
Lemma selector_refuses_unconfigured (env : Env) (p : LLM.LLMProvider) :
  LLM.getProvider env = Ok p -> LLM.isConfigured p = true.
Proof.
  unfold LLM.getProvider.
  destruct (String.eqb _ "openai").
  - destruct (LLM.isConfigured (LLM.openai_provider (OpenAI.new env))) eqn:H;
      [intros [= <-]; exact H | discriminate].
  - destruct (String.eqb _ "anthropic"); [| discriminate].
    destruct (LLM.isConfigured (LLM.anthropic_provider (Anthropic.new env))) eqn:H;
      [intros [= <-]; exact H | discriminate].
Qed.


(** The selector on three environments: no credential, a provider name
    that is not known, and a name in capitals. *)
Example selector_without_credential :
  LLM.getProvider Examples.env_none
  = Err (LLMProviderError
           "OpenAI provider is not configured. Please set the required API key environment variable.").
Proof. reflexivity. Qed.

Example selector_unknown_provider :
  LLM.getProvider (mkEnv (Some "Gemini") (Some "sk-test") None None None)
  = Err (LLMProviderError
           "Invalid LLM_PROVIDER: gemini. Must be one of: openai, anthropic").
Proof. reflexivity. Qed.

Example selector_lower_case :
  LLM.getName <$> (match LLM.getProvider Examples.env_anthropic with
                   | Ok p => Some p
                   | Err _ => None
                   end)
  = Some "Anthropic".
Proof. reflexivity. Qed.

(** Without a credential the handler answers 503 and enters no adapter. *)
Example handler_without_credential :
  let o := Route.POST Examples.env_none Examples.net Examples.engine
             Examples.clock (Tee.fair 3) (Ok Examples.body_hi) Examples.empty_db in
  Route.status (Route.response o) = 503 /\ Route.events o = [].
Proof. split; reflexivity. Qed.

End Unconfigured.

(** ** The persistence transaction *)

Section Storage.
Import Prisma Route.

(** What the transaction does, for every behaviour of the engine: with no
    failing call it commits the four effects; otherwise the first failing
    call (or the commit) throws, and the tables are as before. *)
Lemma transaction_save (S : Storage) (id : string) (uid : option string)
  (content : string) (c : Collected) (db : Db) :
  let calls := save_calls id uid content c (bool_decide (is_Some (chats db !! id))) in
  let n := length calls in
  transaction S (save S id uid content c) db =
  match List.find (fails S) (seq 0 (Datatypes.S n)) with
  | None => (committed S id uid content c db, Ok tt, calls)
  | Some k =>
      (db, Err (StorageError (if (k =? n)%nat then "commit" else "engine")),
       firstn (Datatypes.S k) calls)
  end.
Proof.
  unfold transaction, save, ensure_chat, committed, save_calls, bind, ret,
    findUnique, create, createMessage, update, call.
  cbn [st_calls st_db length app].
  destruct (chats db !! id) as [ch |] eqn:Hch.
  - cbn -[lookup insert].
    destruct (fails S 0) eqn:F0; cbn -[lookup insert]; [reflexivity |].
    rewrite Hch.
    destruct (fails S 1) eqn:F1; cbn -[lookup insert]; [reflexivity |].
    rewrite Hch.
    destruct (fails S 2) eqn:F2; cbn -[lookup insert]; [reflexivity |].
    rewrite Hch.
    destruct (fails S 3) eqn:F3; cbn -[lookup insert]; [reflexivity |].
    destruct (fails S 4) eqn:F4; cbn -[lookup insert]; [reflexivity |].
    rewrite <- app_assoc. reflexivity.
  - cbn -[lookup insert].
    destruct (fails S 0) eqn:F0; cbn -[lookup insert]; [reflexivity |].
    rewrite Hch.
    destruct (fails S 1) eqn:F1; cbn -[lookup insert]; [reflexivity |].
    rewrite !lookup_insert_eq.
    destruct (fails S 2) eqn:F2; cbn -[lookup insert]; [reflexivity |].
    rewrite !lookup_insert_eq.
    destruct (fails S 3) eqn:F3; cbn -[lookup insert]; [reflexivity |].
    rewrite !lookup_insert_eq.
    destruct (fails S 4) eqn:F4; cbn -[lookup insert]; [reflexivity |].
    destruct (fails S 5) eqn:F5; cbn -[lookup insert]; [reflexivity |].
    rewrite insert_insert_eq, <- app_assoc. reflexivity.
Qed.

Lemma firstn_prefix {A} (n : nat) (l : list A) : firstn n l `prefix_of` l.
Proof. exists (skipn n l). symmetry. apply firstn_skipn. Qed.

Lemma find_fails_none (S : Storage) (n : nat) :
  List.find (fails S) (seq 0 (Datatypes.S n)) = None
  <-> (forall i, (i <= n)%nat -> fails S i = false).
Proof.
  split.
  - intros H i Hi. apply (find_none _ _ H). apply in_seq. lia.
  - intros H. destruct (List.find _ _) as [k |] eqn:Hk; [| reflexivity].
    apply find_some in Hk as [Hin Hk]. apply in_seq in Hin.
    rewrite H in Hk by lia. discriminate.
Qed.

(** C7: the transaction makes its calls in the order get-or-create,
    user message, assistant message, [updatedAt]; either all of them take
    effect, or the transaction throws and the tables are unchanged; it
    throws exactly when the engine fails at one of the calls or at the
    commit. *)
Theorem persistence_all_or_nothing (S : Storage) (id : string)
  (uid : option string) (content : string) (c : Collected) (db : Db) :
  let calls := save_calls id uid content c (bool_decide (is_Some (chats db !! id))) in
  let '(db', r, made) := transaction S (save S id uid content c) db in
  ((r = Ok tt /\ db' = committed S id uid content c db /\ made = calls)
   \/ (exists e, r = Err e /\ db' = db /\ made `prefix_of` calls))
  /\ (r = Ok tt <-> forall i, (i <= length calls)%nat -> fails S i = false).
Proof.
  intros calls. rewrite transaction_save. fold calls.
  pose proof (find_fails_none S (length calls)) as Hnone.
  destruct (List.find (fails S) (seq 0 (Datatypes.S (length calls)))) as [k |].
  - split.
    + right. eexists. repeat split. apply firstn_prefix.
    + split; [discriminate | intros H; apply Hnone in H; discriminate].
  - split.
    + left. repeat split.
    + split; [intros _; apply Hnone; reflexivity | reflexivity].
Qed.

(** Both outcomes occur: with an engine that never fails the exchange is
    stored, and with one whose fourth call throws nothing is. *)
Example transaction_commits :
  transaction Examples.engine
    (save Examples.engine "c1" None "hi" (collect Examples.hello_chunks))
    Examples.empty_db
  = (committed Examples.engine "c1" None "hi" (collect Examples.hello_chunks)
       Examples.empty_db,
     Ok tt,
     [chat_findUnique "c1"; chat_create (Some "c1") None (Some "hi");
      message_create "c1" "user" "hi" None;
      message_create "c1" "assistant" "Hello" (Some 2); chat_update "c1"]).
Proof. rewrite transaction_save. reflexivity. Qed.

Example transaction_rolls_back :
  transaction Examples.engine_failing
    (save Examples.engine_failing "c1" None "hi" (collect Examples.hello_chunks))
    Examples.empty_db
  = (Examples.empty_db, Err (StorageError "engine"),
     [chat_findUnique "c1"; chat_create (Some "c1") None (Some "hi");
      message_create "c1" "user" "hi" None;
      message_create "c1" "assistant" "Hello" (Some 2)]).
Proof. rewrite transaction_save. reflexivity. Qed.

(** A transaction that returns has made the four effects; one that
    throws has made none. *)
Lemma transaction_save_ok (S : Storage) (id : string) (uid : option string)
  (content : string) (c : Collected) (db : Db) (db' : Db) (v : unit)
  (made : list DbCall) :
  transaction S (save S id uid content c) db = (db', Ok v, made) ->
  db' = committed S id uid content c db.
Proof.
  rewrite transaction_save.
  destruct (List.find _ _); [discriminate | intros [= <- _ _]; reflexivity].
Qed.

Lemma transaction_save_err (S : Storage) (id : string) (uid : option string)
  (content : string) (c : Collected) (db : Db) (db' : Db) (e : Error)
  (made : list DbCall) :
  transaction S (save S id uid content c) db = (db', Err e, made) -> db' = db.
Proof.
  rewrite transaction_save.
  destruct (List.find _ _); [intros [= <- _ _]; reflexivity | discriminate].
Qed.

End Storage.

(** ** The collector *)

Section Collector.
Import Prisma Route.

Lemma string_app_assoc (a b c : string) :
  ((a ++ b) ++ c = a ++ (b ++ c))%string.
Proof.
  induction a as [| x a IH]; [reflexivity |].
  change (String x ((a ++ b) ++ c) = String x (a ++ (b ++ c)))%string.
  f_equal. exact IH.
Qed.

Lemma string_app_nil_r (a : string) : (a ++ "")%string = a.
Proof.
  induction a as [| x a IH]; [reflexivity |].
  change (String x (a ++ "") = String x a)%string. f_equal. exact IH.
Qed.

Lemma or_zero_some (v : Z) : JS.or_zero (Some v) = v.
Proof. unfold JS.or_zero. destruct (Z.eqb_spec v 0); congruence. Qed.

(** [n || 0] is the completion tokens of the usage, and 0 without usage. *)
Lemma or_zero_usage (u : option TokenUsage) :
  JS.or_zero (Types.completionTokens <$> u)
  = match u with Some x => Types.completionTokens x | None => 0 end.
Proof. destruct u; simpl; [apply or_zero_some | reflexivity]. Qed.

(** The loop, from any values of its variables. *)
Lemma collect_fold (chunks : list StreamChunk) :
  forall acc,
    fold_left collect_step chunks acc
    = {| assistantContent := (assistantContent acc ++ Spec.text_of chunks)%string;
         completionTokens :=
           match Spec.final_chunk chunks with
           | Some ch => JS.or_zero (Types.completionTokens <$> usage ch)
           | None => completionTokens acc
           end;
         finishReason :=
           match Spec.final_chunk chunks with
           | Some ch => JS.or_null (Types.finishReason ch)
           | None => finishReason acc
           end |}.
Proof.
  unfold Spec.text_of, Spec.final_chunk.
  induction chunks as [| ch rest IH]; intros acc; simpl.
  - rewrite string_app_nil_r. destruct acc; reflexivity.
  - rewrite IH. unfold collect_step.
    destruct (done ch) eqn:Hd; simpl.
    + rewrite last_cons. destruct (last (List.filter done rest)); reflexivity.
    + rewrite string_app_assoc. reflexivity.
Qed.

Lemma collect_text (chunks : list StreamChunk) :
  assistantContent (collect chunks) = Spec.text_of chunks.
Proof. unfold collect. rewrite collect_fold. reflexivity. Qed.

Lemma collect_tokens (chunks : list StreamChunk) :
  completionTokens (collect chunks)
  = match Spec.final_chunk chunks with
    | Some ch =>
        match usage ch with
        | Some u => Types.completionTokens u
        | None => 0
        end
    | None => 0
    end.
Proof.
  unfold collect. rewrite collect_fold. simpl.
  destruct (Spec.final_chunk chunks); [apply or_zero_usage | reflexivity].
Qed.

(** A successful run read the branch to its regular end and committed
    the four effects for what it collected. *)
Lemma collector_success (S : Storage) (clock : Clock)
  (stream : ReadableStream StreamChunk) (id : string) (uid : option string)
  (content provider : string) (db : Db) :
  result (collectAndSaveResponse S clock stream id uid content provider db) = Ok tt ->
  ending stream = Closed
  /\ db_after (collectAndSaveResponse S clock stream id uid content provider db)
     = committed S id uid content (collect (enqueued stream)) db.
Proof.
  unfold collectAndSaveResponse.
  destruct (ending stream); [| discriminate].
  destruct (transaction S _ db) as [[db' [v | e]] made] eqn:Htx; simpl;
    [| discriminate].
  intros _. split; [reflexivity |]. eapply transaction_save_ok, Htx.
Qed.

(** A failed run leaves the tables as they were. *)
Lemma collector_failure (S : Storage) (clock : Clock)
  (stream : ReadableStream StreamChunk) (id : string) (uid : option string)
  (content provider : string) (db : Db) (e : Error) :
  result (collectAndSaveResponse S clock stream id uid content provider db) = Err e ->
  db_after (collectAndSaveResponse S clock stream id uid content provider db) = db
  /\ logs (collectAndSaveResponse S clock stream id uid content provider db)
     = [log_collect_error e].
Proof.
  unfold collectAndSaveResponse.
  destruct (ending stream); simpl.
  - destruct (transaction S _ db) as [[db' [v | e']] made] eqn:Htx; simpl;
      [discriminate |].
    intros [= ->]. split; [| reflexivity]. eapply transaction_save_err, Htx.
  - intros [= ->]. split; reflexivity.
Qed.

(** The rows added by a successful run. *)
Lemma collector_rows (S : Storage) (clock : Clock)
  (stream : ReadableStream StreamChunk) (id : string) (uid : option string)
  (content provider : string) (db : Db) :
  result (collectAndSaveResponse S clock stream id uid content provider db) = Ok tt ->
  exists t_user t_assistant,
    rows (db_after (collectAndSaveResponse S clock stream id uid content provider db))
    = rows db
      ++ [ mkRow id "user" content None t_user;
           mkRow id "assistant" (Spec.text_of (enqueued stream))
                 (Some match Spec.final_chunk (enqueued stream) with
                       | Some ch =>
                           match usage ch with
                           | Some u => Types.completionTokens u
                           | None => 0
                           end
                       | None => 0
                       end)
                 t_assistant ].
Proof.
  intros H. destruct (collector_success _ _ _ _ _ _ _ _ H) as [_ ->].
  unfold committed; simpl. rewrite collect_text, collect_tokens. eauto.
Qed.

(** C4: when the collector succeeds, the assistant message it stored, the
    last row, has for content the concatenation, in order, of the content
    of the chunks it read that are not final. *)
Theorem collector_persists_text (S : Storage) (clock : Clock)
  (stream : ReadableStream StreamChunk) (id : string) (uid : option string)
  (content provider : string) (db : Db) :
  result (collectAndSaveResponse S clock stream id uid content provider db) = Ok tt ->
  exists user_row assistant_row,
    rows (db_after (collectAndSaveResponse S clock stream id uid content provider db))
    = rows db ++ [user_row; assistant_row]
    /\ row_chatId assistant_row = id
    /\ row_role assistant_row = "assistant"
    /\ row_content assistant_row = Spec.text_of (enqueued stream).
Proof.
  intros H. destruct (collector_rows _ _ _ _ _ _ _ _ H) as (t1 & t2 & ->).
  do 2 eexists. split; [reflexivity |]. simpl. auto.
Qed.

Lemma collector_persists_text_witness :
  exists user_row assistant_row,
    rows (db_after (collectAndSaveResponse Examples.engine Examples.clock
                      (mkStream Examples.hello_chunks Closed) "c1" None "hi"
                      "OpenAI" Examples.empty_db))
    = rows Examples.empty_db ++ [user_row; assistant_row]
    /\ row_chatId assistant_row = "c1"
    /\ row_role assistant_row = "assistant"
    /\ row_content assistant_row = "Hello".
Proof.
  apply (collector_persists_text Examples.engine Examples.clock
           (mkStream Examples.hello_chunks Closed) "c1" None "hi" "OpenAI"
           Examples.empty_db).
  vm_compute. reflexivity.
Defined.

(** C10: when the collector succeeds, the user message is stored without
    a token count, and the assistant message with the completion tokens of
    the final chunk's usage, or 0 when the final chunk has no usage. *)
Theorem persisted_token_counts (S : Storage) (clock : Clock)
  (stream : ReadableStream StreamChunk) (id : string) (uid : option string)
  (content provider : string) (db : Db) :
  result (collectAndSaveResponse S clock stream id uid content provider db) = Ok tt ->
  exists user_row assistant_row,
    rows (db_after (collectAndSaveResponse S clock stream id uid content provider db))
    = rows db ++ [user_row; assistant_row]
    /\ row_role user_row = "user"
    /\ row_content user_row = content
    /\ row_tokens user_row = None
    /\ row_role assistant_row = "assistant"
    /\ row_tokens assistant_row
       = Some match Spec.final_chunk (enqueued stream) with
              | Some ch =>
                  match usage ch with
                  | Some u => Types.completionTokens u
                  | None => 0
                  end
              | None => 0
              end.
Proof.
  intros H. destruct (collector_rows _ _ _ _ _ _ _ _ H) as (t1 & t2 & ->).
  do 2 eexists. split; [reflexivity |]. simpl. auto 10.
Qed.

Lemma persisted_token_counts_witness :
  exists user_row assistant_row,
    rows (db_after (collectAndSaveResponse Examples.engine Examples.clock
                      (mkStream Examples.hello_chunks Closed) "c1" None "hi"
                      "OpenAI" Examples.empty_db))
    = rows Examples.empty_db ++ [user_row; assistant_row]
    /\ row_role user_row = "user"
    /\ row_content user_row = "hi"
    /\ row_tokens user_row = None
    /\ row_role assistant_row = "assistant"
    /\ row_tokens assistant_row = Some 2.
Proof.
  apply (persisted_token_counts Examples.engine Examples.clock
           (mkStream Examples.hello_chunks Closed) "c1" None "hi" "OpenAI"
           Examples.empty_db).
  vm_compute. reflexivity.
Defined.

End Collector.

(** ** Get-or-create *)

Section GetOrCreate.
Import Prisma Route.

(** The title of a new chat is a prefix of the user's message, of at
    most 100 characters. *)
Lemma substring0_prefix (n : nat) (s : string) :
  exists rest, s = (JS.substring0 n s ++ rest)%string.
Proof.
  unfold JS.substring0. revert n.
  induction s as [| c s IH]; intros [| n]; simpl.
  - exists ""%string. reflexivity.
  - exists ""%string. reflexivity.
  - eexists. reflexivity.
  - destruct (IH n) as [rest Hrest]. exists rest.
    change (String c s = String c (String.substring 0 n s ++ rest)%string).
    f_equal. exact Hrest.
Qed.

Lemma substring0_length (n : nat) (s : string) :
  (String.length (JS.substring0 n s) <= n)%nat.
Proof.
  unfold JS.substring0. revert n.
  induction s as [| c s IH]; intros [| n]; simpl; try lia.
  specialize (IH n). lia.
Qed.

Lemma truthy_nonempty (s : string) : s <> "" -> JS.truthy (Some s) = true.
Proof.
  intros H. unfold JS.truthy. destruct (String.eqb_spec s ""); [contradiction | reflexivity].
Qed.

(** The repository's [getOrCreateChat] with an id: the chat is returned
    when it is there, and [ChatNotFoundError] is thrown when it is not. *)
Lemma getOrCreateChat_with_id (S : Storage) (id : string)
  (uid title : option string) (db : Db) :
  id <> "" -> fails S 0 = false ->
  run (ChatRepo.getOrCreateChat S (Some id) uid title) db
  = (db,
     match chats db !! id with
     | Some c =>
         Ok (ChatRepo.mkChatWithMessages c (orderByCreatedAt (messages_of db id)))
     | None => Err (ChatNotFoundError id)
     end,
     [chat_findUnique id]).
Proof.
  intros Hid F0.
  unfold run, ChatRepo.getOrCreateChat. rewrite (truthy_nonempty _ Hid).
  unfold bind, findUnique, call. cbn -[lookup insert]. rewrite F0.
  destruct (chats db !! id); reflexivity.
Qed.

(** C2, as the code has it: the get-or-create step of the persistence
    transaction returns the chat when it exists, and otherwise creates
    it, titled with the first 100 characters of the user's message; run
    again with the same id it creates nothing and returns the same chat,
    the tables being unchanged.  The repository's [getOrCreateChat]
    returns an existing chat in the same way, and throws
    [ChatNotFoundError] for an id that does not exist. *)
Theorem get_or_create_step (S S' : Storage) (id : string)
  (uid uid' title : option string) (content content' : string) (db : Db) :
  fails S 0 = false -> fails S 1 = false -> fails S' 0 = false ->
  exists c db1 calls1,
    run (ensure_chat S id uid content) db = (db1, Ok c, calls1)
    /\ chats db1 !! id = Some c
    /\ (forall c0, chats db !! id = Some c0 ->
          c = c0 /\ db1 = db /\ calls1 = [chat_findUnique id])
    /\ (chats db !! id = None ->
          c = mkChat id uid (Some (JS.substring0 100 content)) (now S 1) (now S 1)
          /\ db1 = mkDb (<[id := c]> (chats db)) (rows db)
          /\ calls1 = [chat_findUnique id;
                       chat_create (Some id) uid (Some (JS.substring0 100 content))])
    /\ run (ensure_chat S' id uid' content') db1 = (db1, Ok c, [chat_findUnique id])
    /\ (id <> "" ->
          run (ChatRepo.getOrCreateChat S' (Some id) uid' title) db1
          = (db1,
             Ok (ChatRepo.mkChatWithMessages c (orderByCreatedAt (messages_of db1 id))),
             [chat_findUnique id]))
    /\ (id <> "" -> chats db !! id = None ->
          run (ChatRepo.getOrCreateChat S (Some id) uid title) db
          = (db, Err (ChatNotFoundError id), [chat_findUnique id])).
Proof.
  intros F0 F1 F0'.
  unfold run, ensure_chat, bind, ret, findUnique, create, call.
  cbn -[lookup insert]. rewrite F0, F0'.
  destruct (chats db !! id) as [c0 |] eqn:Hc; cbn -[lookup insert].
  - exists c0, db, [chat_findUnique id].
    rewrite Hc. split_and!.
    + destruct db; reflexivity.
    + reflexivity.
    + intros c1 [= <-]. auto.
    + discriminate.
    + destruct db; reflexivity.
    + intros Hid.
      pose proof (getOrCreateChat_with_id S' id uid' title db Hid F0') as H.
      rewrite Hc in H. exact H.
    + discriminate.
  - rewrite F1, Hc. cbn -[lookup insert].
    set (c := mkChat id uid (Some (JS.substring0 100 content)) (now S 1) (now S 1)).
    exists c, (mkDb (<[id := c]> (chats db)) (rows db)),
           [chat_findUnique id;
            chat_create (Some id) uid (Some (JS.substring0 100 content))].
    cbn -[lookup insert]. rewrite !lookup_insert_eq. split_and!.
    + reflexivity.
    + reflexivity.
    + discriminate.
    + auto.
    + reflexivity.
    + intros Hid.
      pose proof (getOrCreateChat_with_id S' id uid' title
                    (mkDb (<[id := c]> (chats db)) (rows db)) Hid F0') as H.
      cbn -[lookup insert] in H. rewrite lookup_insert_eq in H. exact H.
    + intros Hid _.
      pose proof (getOrCreateChat_with_id S id uid title db Hid F0) as H.
      rewrite Hc in H. exact H.
Qed.

Lemma get_or_create_step_witness :
  exists c db1 calls1,
    run (ensure_chat Examples.engine "c1" None "hi") Examples.empty_db
    = (db1, Ok c, calls1)
    /\ chats db1 !! "c1" = Some c
    /\ run (ensure_chat Examples.engine "c1" None "again") db1
       = (db1, Ok c, [chat_findUnique "c1"]).
Proof.
  destruct (get_or_create_step Examples.engine Examples.engine "c1" None None None
              "hi" "again" Examples.empty_db eq_refl eq_refl eq_refl)
    as (c & db1 & calls1 & H1 & H2 & _ & _ & H3 & _).
  exists c, db1, calls1. auto.
Defined.

(** The claim as stated fails for the repository's function: given the id
    of a chat that does not exist, it throws instead of creating it. *)
Lemma getOrCreateChat_missing_id_throws :
  ~ (forall S id uid title db,
        chats db !! id = None ->
        exists c db' calls,
          run (ChatRepo.getOrCreateChat S (Some id) uid title) db = (db', Ok c, calls)).
Proof.
  intros H.
  destruct (H Examples.engine "c1" None (Some "hi") Examples.empty_db eq_refl)
    as (c & db' & calls & Hrun).
  vm_compute in Hrun. discriminate.
Qed.

End GetOrCreate.

(** ** The duplicated stream *)

Section Duplication.
Context {A : Type}.
Implicit Types (s : ReadableStream A) (t : Tee.State A) (sb : Tee.BranchState A).

Lemma tee_inv_init s : Tee.tee_inv s (Tee.tee s).
Proof.
  unfold Tee.tee_inv, Tee.source_inv, Tee.branch_inv; simpl. auto.
Qed.

Lemma branch_inv_produce s t sb :
  Tee.source_inv s t -> Tee.branch_inv s t sb -> Tee.branch_inv s (Tee.step_produce t) sb.
Proof.
  unfold Tee.source_inv, Tee.branch_inv, Tee.step_produce.
  intros [Hend Hsrc] [Hst Hseen]. split; [| exact Hseen]. clear Hseen.
  destruct (Tee.src_status t) eqn:Hs; try (rewrite Hs; exact Hst).
  destruct (Tee.pending t) as [| c rest] eqn:Hp.
  - destruct (Tee.src_end t) eqn:He; simpl.
    + destruct (Tee.status sb).
      * rewrite app_nil_r in Hst. rewrite app_nil_r. exact Hst.
      * destruct Hst as (_ & [=] & _).
      * destruct Hst as (_ & _ & [=]).
    + destruct (Tee.status sb).
      * eexists. exact Hst.
      * destruct Hst as (_ & [=] & _).
      * destruct Hst as (_ & _ & [=]).
  - simpl. destruct (Tee.status sb).
    + rewrite <- Hst. rewrite <- !app_assoc. reflexivity.
    + destruct Hst as (_ & [=] & _).
    + destruct Hst as (_ & _ & [=]).
Qed.

Lemma source_inv_produce s t : Tee.source_inv s t -> Tee.source_inv s (Tee.step_produce t).
Proof.
  unfold Tee.source_inv, Tee.step_produce. intros [Hend Hsrc].
  destruct (Tee.src_status t) eqn:Hs; try (rewrite Hs; auto).
  destruct (Tee.pending t) as [| c rest] eqn:Hp.
  - destruct (Tee.src_end t) eqn:He; simpl; rewrite ?He; auto.
  - simpl. auto.
Qed.

Lemma source_inv_pull s t : Tee.source_inv s t -> Tee.source_inv s (Tee.step_pull t).
Proof.
  unfold Tee.source_inv, Tee.step_pull. intros [Hend Hsrc].
  destruct (Tee.src_queue t) as [| c rest] eqn:Hq.
  - destruct (Tee.src_status t) eqn:Hs; simpl; rewrite ?Hs, ?Hq; auto.
  - simpl. split; [exact Hend |].
    destruct (Tee.src_status t); auto.
    destruct Hsrc as (_ & [=] & _).
Qed.

Lemma step_pull_branches t :
  Tee.first (Tee.step_pull t) = Tee.pulled t (Tee.first t)
  /\ Tee.second (Tee.step_pull t) = Tee.pulled t (Tee.second t).
Proof.
  unfold Tee.step_pull, Tee.pulled.
  destruct (Tee.src_queue t); [destruct (Tee.src_status t) |]; auto.
Qed.

Lemma branch_inv_pull s t sb :
  Tee.source_inv s t -> Tee.branch_inv s t sb -> Tee.branch_inv s (Tee.step_pull t) (Tee.pulled t sb).
Proof.
  unfold Tee.source_inv, Tee.branch_inv, Tee.step_pull, Tee.pulled.
  intros [Hend Hsrc] [Hst Hseen].
  destruct (Tee.src_queue t) as [| c rest] eqn:Hq.
  - destruct (Tee.src_status t) eqn:Hs; simpl; rewrite ?Hs, ?Hq.
    + split; [| exact Hseen]. destruct (Tee.status sb); exact Hst.
    + destruct Hsrc as [Hp He].
      unfold Tee.close. destruct (Tee.status sb) eqn:Hb; simpl; rewrite ?Hb.
      * split.
        -- rewrite Hp in Hst. simpl in Hst. rewrite !app_nil_r in Hst. auto.
        -- destruct (Tee.seen sb); [exact I | destruct Hseen; discriminate | discriminate].
      * split; [exact Hst | exact Hseen].
      * split; [exact Hst | exact Hseen].
    + unfold Tee.error. destruct (Tee.status sb) eqn:Hb; simpl; rewrite ?Hb.
      * split.
        -- destruct Hst as [rest Hst]. split; [reflexivity |]. split; [| reflexivity].
           exists (Tee.queue sb ++ rest). exact Hst.
        -- destruct (Tee.seen sb); [exact I | destruct Hseen; discriminate | discriminate].
      * split; [exact Hst | exact Hseen].
      * split; [exact Hst | exact Hseen].
  - assert (Hne : forall e, Tee.src_status t <> Tee.src_errored e).
    { intros e He. rewrite He in Hsrc. destruct Hsrc as (_ & [=] & _). }
    unfold Tee.enqueue. destruct (Tee.status sb) eqn:Hb; simpl; rewrite ?Hb.
    + split.
      * destruct (Tee.src_status t) eqn:Hs.
        -- rewrite <- Hst. rewrite <- !app_assoc. reflexivity.
        -- rewrite <- Hst. rewrite <- !app_assoc. reflexivity.
        -- exfalso. eapply Hne. reflexivity.
      * destruct (Tee.seen sb); [exact I | destruct Hseen; discriminate | discriminate].
    + destruct Hst as (_ & _ & [=]).
    + destruct Hst as (_ & _ & Hs). exfalso. eapply Hne, Hs.
Qed.

Lemma branch_inv_read s t sb : Tee.branch_inv s t sb -> Tee.branch_inv s t (Tee.step_read sb).
Proof.
  unfold Tee.branch_inv, Tee.step_read. intros [Hst Hseen].
  destruct (Tee.seen sb) eqn:Hs; try (rewrite Hs; auto).
  destruct (Tee.queue sb) as [| c rest] eqn:Hq.
  - destruct (Tee.status sb) eqn:Hb; simpl; rewrite ?Hb, ?Hs, ?Hq; auto.
  - simpl. split; [| exact I].
    destruct (Tee.status sb).
    + destruct (Tee.src_status t).
      * rewrite <- Hst. rewrite <- !app_assoc. reflexivity.
      * rewrite <- Hst. rewrite <- !app_assoc. reflexivity.
      * destruct Hst as [r Hst]. exists r. rewrite <- Hst.
        rewrite <- !app_assoc. reflexivity.
    + destruct Hst as (Hst & ? & ?). repeat split; auto.
      rewrite <- Hst. rewrite <- !app_assoc. reflexivity.
    + destruct Hst as ([=] & _).
Qed.

(** The branch invariant only looks at the source side of the state. *)
Lemma branch_inv_set_branch s t b sb' sb :
  Tee.branch_inv s (Tee.set_branch b sb' t) sb <-> Tee.branch_inv s t sb.
Proof. destruct b; reflexivity. Qed.

Lemma tee_inv_step s t (a : Tee.Action) : Tee.tee_inv s t -> Tee.tee_inv s (Tee.step a t).
Proof.
  intros (Hsrc & H1 & H2). destruct a as [| | b]; simpl.
  - split; [apply source_inv_produce, Hsrc |].
    assert (Hb : Tee.first (Tee.step_produce t) = Tee.first t
                 /\ Tee.second (Tee.step_produce t) = Tee.second t).
    { unfold Tee.step_produce.
      destruct (Tee.src_status t); auto.
      destruct (Tee.pending t); auto. destruct (Tee.src_end t); auto. }
    destruct Hb as [-> ->].
    split; apply branch_inv_produce; assumption.
  - split; [apply source_inv_pull, Hsrc |].
    destruct (step_pull_branches t) as [-> ->].
    split; apply branch_inv_pull; assumption.
  - destruct b; (split; [exact Hsrc |]); simpl; split;
      try (apply (branch_inv_set_branch s t Tee.branch1));
      try assumption; try (apply branch_inv_read; assumption).
Qed.

Lemma tee_inv_run s (schedule : list Tee.Action) :
  forall t, Tee.tee_inv s t -> Tee.tee_inv s (Tee.run schedule t).
Proof.
  induction schedule as [| a rest IH]; intros t H; simpl; [exact H |].
  apply IH, tee_inv_step, H.
Qed.


Lemma branch_inv_done s t sb :
  Tee.source_inv s t -> Tee.branch_inv s t sb -> Tee.seen sb = Tee.seen_done ->
  Tee.received sb = enqueued s /\ ending s = Closed.
Proof.
  unfold Tee.source_inv, Tee.branch_inv. intros [Hend Hsrc] [Hst Hseen] Hd.
  rewrite Hd in Hseen. destruct Hseen as [Hb Hq]. rewrite Hb in Hst.
  destruct Hst as (Hst & Hs & _). rewrite Hq, app_nil_r in Hst.
  rewrite Hs in Hsrc. destruct Hsrc as [_ He]. split; congruence.
Qed.

Lemma tee_inv_branch s t (b : Tee.Branch) :
  Tee.tee_inv s t -> Tee.branch_inv s t (Tee.branch b t).
Proof. intros (_ & H1 & H2). destruct b; assumption. Qed.



End Duplication.

(** A complete run: the producer finishes, the pull loop drains the
    source, and both readers read to the end. *)

Section FairRun.
Context {A : Type}.








Local Arguments Tee.run : simpl never.



End FairRun.

(** Any run can be completed: whatever has happened, the producer can be
    left to finish, the pull loop to drain the source and a reader to
    read until it is told the end. *)

Section Completion.
Context {A : Type}.
Implicit Types (t : Tee.State A) (sb : Tee.BranchState A).

Local Arguments Tee.run : simpl never.











End Completion.

(** Two runs of the duplication.  In the first the readers advance at
    different paces and both end with the whole stream.  In the second the
    producer fails after two chunks: the first reader had read one of
    them, the second none, and both are told the error. *)
Example tee_two_paces :
  let t := Tee.run [Tee.produce; Tee.pull; Tee.read Tee.branch1; Tee.produce;
                    Tee.pull; Tee.read Tee.branch1; Tee.produce; Tee.produce;
                    Tee.pull; Tee.pull; Tee.read Tee.branch1; Tee.read Tee.branch1;
                    Tee.read Tee.branch2; Tee.read Tee.branch2; Tee.read Tee.branch2;
                    Tee.read Tee.branch2]
                   (Tee.tee (mkStream Examples.hello_chunks Closed)) in
  Tee.observed Tee.branch1 t = Some (mkStream Examples.hello_chunks Closed)
  /\ Tee.observed Tee.branch2 t = Some (mkStream Examples.hello_chunks Closed).
Proof. split; reflexivity. Qed.

Example tee_producer_fails :
  let t := Tee.run [Tee.produce; Tee.pull; Tee.read Tee.branch1; Tee.produce;
                    Tee.produce; Tee.pull; Tee.read Tee.branch1;
                    Tee.read Tee.branch2]
                   (Tee.tee (mkStream (firstn 2 Examples.hello_chunks)
                                      (Errored (OtherError "Stream error")))) in
  Tee.observed Tee.branch1 t
  = Some (mkStream (firstn 1 Examples.hello_chunks)
                   (Errored (OtherError "Stream error")))
  /\ Tee.observed Tee.branch2 t
     = Some (mkStream [] (Errored (OtherError "Stream error"))).
Proof. split; reflexivity. Qed.

(** ** The handler *)

Section Handler.
Import Prisma Route.










Lemma role_name_user (r : MessageRole) : role_name r = "user" -> r = user.
Proof. destruct r; simpl; congruence. Qed.

(** C8: a request whose last message is not from the user is answered
    with status 400; no adapter is entered, nothing is sent to a backend
    and the storage engine is not called. *)
Theorem last_message_must_be_user (env : Env) (net : LLM.Network) (S : Storage)
  (clock : Clock) (schedule : list Tee.Action) (b : ChatRequestBody) (db : Db) :
  in_role <$> last (body_messages b) <> Some "user" ->
  status (response (POST env net S clock schedule (Ok b) db)) = 400
  /\ events (POST env net S clock schedule (Ok b) db) = []
  /\ engine_calls (POST env net S clock schedule (Ok b) db) = []
  /\ tables (POST env net S clock schedule (Ok b) db) = db.
Proof.
  intros Hlast. unfold POST.
  destruct (ChatSchema_parse _) as [validated | z] eqn:Hparse;
    [| repeat split; reflexivity].
  destruct (last (req_messages validated)) as [userMessage |] eqn:Hl;
    [| repeat split; reflexivity].
  destruct (MessageRole_eqb (role userMessage) user) eqn:Hrole;
    [| repeat split; reflexivity].
  exfalso. apply Hlast.
  pose proof (parse_keeps_messages _ _ Hparse) as Hmsgs. simpl in Hmsgs.
  rewrite <- Hmsgs.
  change (map ?f ?l) with (f <$> l). rewrite fmap_last, Hl. simpl.
  destruct (role userMessage); simpl in *; congruence.
Qed.

Lemma last_message_must_be_user_witness :
  status (response (POST Examples.env_openai Examples.net Examples.engine
                      Examples.clock (Tee.fair 3)
                      (Ok Examples.body_assistant_last) Examples.empty_db)) = 400
  /\ events (POST Examples.env_openai Examples.net Examples.engine
               Examples.clock (Tee.fair 3)
               (Ok Examples.body_assistant_last) Examples.empty_db) = []
  /\ engine_calls (POST Examples.env_openai Examples.net Examples.engine
                     Examples.clock (Tee.fair 3)
                     (Ok Examples.body_assistant_last) Examples.empty_db) = []
  /\ tables (POST Examples.env_openai Examples.net Examples.engine
               Examples.clock (Tee.fair 3)
               (Ok Examples.body_assistant_last) Examples.empty_db)
     = Examples.empty_db.
Proof.
  apply (last_message_must_be_user Examples.env_openai Examples.net Examples.engine
           Examples.clock (Tee.fair 3) Examples.body_assistant_last Examples.empty_db).
  vm_compute. discriminate.
Defined.

End Handler.

(** ** End to end *)

Section EndToEnd.
Import Prisma Route.

Lemma observed_closed {A} (b : Tee.Branch) (t : Tee.State A)
  (cs : ReadableStream A) :
  Tee.observed b t = Some cs -> ending cs = Closed ->
  Tee.seen (Tee.branch b t) = Tee.seen_done
  /\ enqueued cs = Tee.received (Tee.branch b t).
Proof.
  unfold Tee.observed. destruct (Tee.seen (Tee.branch b t)); try discriminate.
  - intros [= <-] _. auto.
  - intros [= <-]. discriminate.
Qed.

(** When the handler reports that the exchange was saved, the two rows
    added to the tables are the user's last message and the text of the
    stream that the adapter produced. *)
Lemma POST_saved_text (env : Env) (net : LLM.Network) (S : Storage)
  (clock : Clock) (schedule : list Tee.Action) (b : ChatRequestBody) (db : Db)
  (id provider : string) (latencyMs tokens : Z) (reason : option string) :
  In (log_saved id provider latencyMs tokens reason)
     (console (POST env net S clock schedule (Ok b) db)) ->
  exists validated llmStream evs user_row assistant_row,
    LLM.chatStream env net (to_input validated) = (Ok llmStream, evs)
    /\ ending llmStream = Closed
    /\ rows (tables (POST env net S clock schedule (Ok b) db))
       = rows db ++ [user_row; assistant_row]
    /\ row_chatId assistant_row = chatId b
    /\ row_role assistant_row = "assistant"
    /\ row_content assistant_row = Spec.text_of (enqueued llmStream).
Proof.
  unfold POST.
  destruct (ChatSchema_parse _) as [validated | z];
    [| unfold failed, on_error; simpl; tauto].
  destruct (last (req_messages validated)) as [userMessage |]; [| intros []].
  destruct (MessageRole_eqb (role userMessage) user); [| intros []].
  destruct (LLM.getCurrentProviderName env) as [prov | e];
    [| unfold failed, on_error; destruct e; simpl; intros H;
       repeat (destruct H as [H | H]; try discriminate); destruct H].
  destruct (LLM.chatStream env net (to_input validated)) as [[llmStream | e] evs]
    eqn:Hstream;
    [| unfold failed, on_error; destruct e; simpl; intros H;
       repeat (destruct H as [H | H]; try discriminate); destruct H].
  destruct (Tee.observed Tee.branch2 _) as [collectorStream |] eqn:Hobs;
    [| intros []].
  cbn [console tables].
  destruct (result (collectAndSaveResponse S clock collectorStream (chatId b)
                      (userId b) (content userMessage) prov db))
    as [[] | e] eqn:Hres.
  - intros _.
    destruct (collector_success _ _ _ _ _ _ _ _ Hres) as [Hend _].
    destruct (observed_closed _ _ _ Hobs Hend) as [Hdone Hread].
    pose proof (tee_inv_run llmStream schedule _ (tee_inv_init llmStream)) as Hinv.
    destruct (branch_inv_done llmStream _ _ (proj1 Hinv)
                (tee_inv_branch llmStream _ Tee.branch2 Hinv) Hdone)
      as [Hall Hclosed].
    destruct (collector_rows _ _ _ _ _ _ _ _ Hres) as (t1 & t2 & Hrows).
    rewrite Hread, Hall in Hrows.
    do 5 eexists. split; [exact Hstream |]. split; [exact Hclosed |].
    split; [exact Hrows |]. simpl. auto.
  - destruct (collector_failure _ _ _ _ _ _ _ _ _ Hres) as [_ Hlogs].
    rewrite Hlogs. simpl. intros H.
    repeat (destruct H as [H | H]; try discriminate). destruct H.
Qed.

(** The example of the specification: the request for chat "c1" with the
    user message "hi", an adapter that streams "He", "llo" and a final
    chunk.  The caller reads the three chunks and the end of the stream;
    the tables receive the chat "c1", the user message "hi" and the
    assistant message "Hello". *)
Example hello_delivered :
  response (POST Examples.env_openai Examples.net Examples.engine Examples.clock
              (Tee.fair 3) (Ok Examples.body_hi) Examples.empty_db)
  = mkResponse 200
      [("Content-Type", "text/event-stream");
       ("Cache-Control", "no-cache, no-transform");
       ("Connection", "keep-alive"); ("X-Provider", "OpenAI")]
      (stream_body
         [ mkStreamChunk "He" false (Some "gpt-4o-mini") None None;
           mkStreamChunk "llo" false (Some "gpt-4o-mini") None None;
           mkStreamChunk "" true (Some "gpt-4o-mini") None (Some "stop") ]
         Tee.seen_done).
Proof. vm_compute. reflexivity. Qed.

Example hello_persisted :
  rows (tables (POST Examples.env_openai Examples.net Examples.engine
                  Examples.clock (Tee.fair 3) (Ok Examples.body_hi)
                  Examples.empty_db))
  = [ mkRow "c1" "user" "hi" None 1002; mkRow "c1" "assistant" "Hello" (Some 0) 1003 ]
  /\ chats (tables (POST Examples.env_openai Examples.net Examples.engine
                      Examples.clock (Tee.fair 3) (Ok Examples.body_hi)
                      Examples.empty_db)) !! "c1"
     = Some (mkChat "c1" None (Some "hi") 1001 1004).
Proof. split; vm_compute; reflexivity. Qed.

(** The same request through the Anthropic adapter stores the output
    tokens of the final message. *)
Example hello_anthropic :
  rows (tables (POST Examples.env_anthropic Examples.net Examples.engine
                  Examples.clock (Tee.fair 3) (Ok Examples.body_hi)
                  Examples.empty_db))
  = [ mkRow "c1" "user" "hi" None 1002; mkRow "c1" "assistant" "Hello" (Some 2) 1003 ].
Proof. vm_compute. reflexivity. Qed.

End EndToEnd.

(** * Further properties of the code *)

(** ** The validator, again *)

Section ValidatorMore.

Lemma parse_messages_of_parsed (parsed : list Message) :
  forall i,
    parse_messages i
      (map (fun m => mkMessageInput (role_name (role m)) (content m)) parsed)
    = ([], parsed).
Proof.
  induction parsed as [| m rest IH]; intros i; simpl; [reflexivity |].
  rewrite IH, role_parse_role_name. destruct m; reflexivity.
Qed.

(** What a successful parse says about its input and its result. *)
Lemma parse_ok_inv (input : ChatRequestInput) (request : ChatRequest) :
  ChatSchema_parse input = Ok request ->
  messages_min_issues (in_messages input) = []
  /\ optional_issues temperature_issues (in_temperature input) = []
  /\ optional_issues maxTokens_issues (in_maxTokens input) = []
  /\ request
     = mkChatRequest (in_system input) (snd (parse_messages 0 (in_messages input)))
         (default false (in_stream input))
         (default default_temperature (in_temperature input))
         (in_maxTokens input) (in_model input).
Proof.
  unfold ChatSchema_parse.
  destruct (parse_messages 0 (in_messages input)) as [role_issues parsed].
  destruct (messages_min_issues (in_messages input) ++ role_issues
            ++ optional_issues temperature_issues (in_temperature input)
            ++ optional_issues maxTokens_issues (in_maxTokens input))
    as [| issue issues] eqn:Hissues; [| discriminate].
  intros [= <-].
  apply app_eq_nil in Hissues as [H1 H]. apply app_eq_nil in H as [_ H].
  apply app_eq_nil in H as [H3 H4]. auto.
Qed.

Lemma parse_of_parsed (input : ChatRequestInput) (request : ChatRequest) :
  ChatSchema_parse input = Ok request ->
  ChatSchema_parse (to_input request) = Ok request.
Proof.
  intros Hparse.
  pose proof (parse_keeps_messages _ _ Hparse) as Hmsgs.
  destruct (parse_ok_inv _ _ Hparse) as (Hmin & Htemp & Hmax & Hreq).
  unfold ChatSchema_parse. simpl in_messages.
  rewrite parse_messages_of_parsed.
  simpl in Hmsgs. unfold to_input at 1 2 3 4 5. cbn [in_messages in_temperature in_maxTokens in_system in_stream in_model].
  rewrite Hmsgs, Hmin.
  assert (Ht : optional_issues temperature_issues (Some (req_temperature request)) = []).
  { subst request. simpl. destruct (in_temperature input); simpl in *;
      [exact Htemp | reflexivity]. }
  assert (Hm : optional_issues maxTokens_issues (req_maxTokens request) = []).
  { subst request. exact Hmax. }
  rewrite Ht, Hm. simpl. destruct request; reflexivity.
Qed.

(** Validity does not depend on the [stream] field. *)
Lemma parse_with_stream (input : ChatRequestInput) (request : ChatRequest)
  (flag : option bool) :
  ChatSchema_parse input = Ok request ->
  ChatSchema_parse
    (mkChatRequestInput (in_system input) (in_messages input) flag
       (in_temperature input) (in_maxTokens input) (in_model input))
  = Ok (mkChatRequest (req_system request) (req_messages request)
          (default false flag) (req_temperature request) (req_maxTokens request)
          (req_model request)).
Proof.
  intros Hparse. destruct (parse_ok_inv _ _ Hparse) as (Hmin & Htemp & Hmax & ->).
  pose proof (parse_keeps_messages _ _ Hparse) as Hmsgs.
  revert Hparse. unfold ChatSchema_parse. simpl.
  destruct (parse_messages 0 (in_messages input)) as [role_issues parsed].
  rewrite Hmin, Htemp, Hmax. simpl. rewrite !app_nil_r.
  destruct role_issues; [reflexivity | discriminate].
Qed.

(** The handler, the selector and the adapter each validate the request
    they are given: a request that came out of the validator goes through
    it again unchanged, and with another [stream] flag put in, as the
    handler and the selector do, it comes out the same but for that
    flag. *)
Theorem parse_to_input_roundtrip (input : ChatRequestInput) (request : ChatRequest) :
  ChatSchema_parse input = Ok request ->
  ChatSchema_parse (to_input request) = Ok request
  /\ forall flag : option bool,
       ChatSchema_parse
         (mkChatRequestInput (in_system (to_input request))
            (in_messages (to_input request)) flag
            (in_temperature (to_input request)) (in_maxTokens (to_input request))
            (in_model (to_input request)))
       = Ok (mkChatRequest (req_system request) (req_messages request)
               (default false flag) (req_temperature request)
               (req_maxTokens request) (req_model request)).
Proof.
  intros Hparse. apply parse_of_parsed in Hparse.
  split; [exact Hparse |].
  intros flag. exact (parse_with_stream (to_input request) request flag Hparse).
Qed.

Lemma parse_to_input_roundtrip_witness :
  ChatSchema_parse
    (to_input (mkChatRequest None [mkMessage user "hi"] false (7 # 10)%Q None None))
  = Ok (mkChatRequest None [mkMessage user "hi"] false (7 # 10)%Q None None).
Proof.
  apply (parse_to_input_roundtrip Examples.hi). reflexivity.
Defined.

Lemma parse_messages_issue_index (ms : list MessageInput) :
  forall i j,
    In (mkZodIssue [Key "messages"; Idx j; Key "role"] invalid_enum_value)
       (fst (parse_messages i ms))
    <-> exists k m, j = (i + k)%nat /\ ms !! k = Some m
                    /\ ~ Spec.recognized (in_role m).
Proof.
  induction ms as [| m rest IH]; intros i j; simpl.
  - split; [tauto | intros (k & m & _ & [=] & _)].
  - specialize (IH (S i) j).
    destruct (parse_messages (S i) rest) as [issues parsed]; simpl in IH.
    destruct (MessageRoleSchema_parse (in_role m)) as [r |] eqn:Hr; simpl.
    + rewrite IH. split.
      * intros (k & m' & -> & Hk & Hm). exists (S k), m'.
        split; [lia | auto].
      * intros ([| k] & m' & -> & Hk & Hm); simpl in Hk.
        -- injection Hk as <-. exfalso. apply Hm.
           apply role_parse_recognized. eauto.
        -- exists k, m'. split; [lia | auto].
    + split.
      * intros [Heq | Hin].
        -- injection Heq as <-. exists 0%nat, m. split; [lia |].
           split; [reflexivity |]. intros Hrec.
           apply role_parse_recognized in Hrec as [r Hrec]. congruence.
        -- apply IH in Hin as (k & m' & -> & Hk & Hm).
           exists (S k), m'. split; [lia | auto].
      * intros ([| k] & m' & -> & Hk & Hm); simpl in Hk.
        -- left. rewrite Nat.add_0_r. reflexivity.
        -- right. apply IH. exists k, m'. split; [lia | auto].
Qed.

Lemma temperature_issues_path (t : Q) (issue : ZodIssue) :
  In issue (temperature_issues t) -> issue_path issue = [Key "temperature"].
Proof.
  unfold temperature_issues. intros H. apply in_app_or in H as [H | H].
  - destruct (Qle_bool 0 t); simpl in H; [tauto |]. destruct H as [<- | []]. reflexivity.
  - destruct (Qle_bool t 2); simpl in H; [tauto |]. destruct H as [<- | []]. reflexivity.
Qed.

Lemma maxTokens_issues_path (m : Q) (issue : ZodIssue) :
  In issue (maxTokens_issues m) -> issue_path issue = [Key "maxTokens"].
Proof.
  unfold maxTokens_issues. destruct (Qle_bool m 0); simpl; [| tauto].
  intros [<- | []]. reflexivity.
Qed.

(** The error of the validator points at every message whose role is not
    recognized, by its index, and at no other message. *)
Theorem role_issue_index (input : ChatRequestInput) (z : ZodError) (j : nat) :
  ChatSchema_parse input = Err z ->
  In (mkZodIssue [Key "messages"; Idx j; Key "role"] invalid_enum_value) (errors z)
  <-> exists m, in_messages input !! j = Some m /\ ~ Spec.recognized (in_role m).
Proof.
  unfold ChatSchema_parse.
  pose proof (parse_messages_issue_index (in_messages input) 0 j) as Hidx.
  destruct (parse_messages 0 (in_messages input)) as [role_issues parsed].
  simpl in Hidx.
  destruct (messages_min_issues (in_messages input) ++ role_issues
            ++ optional_issues temperature_issues (in_temperature input)
            ++ optional_issues maxTokens_issues (in_maxTokens input))
    as [| issue issues] eqn:Hissues; [discriminate |].
  intros [= <-]. simpl errors. rewrite <- Hissues.
  split.
  - intros H. apply in_app_or in H as [H | H].
    { unfold messages_min_issues in H.
      destruct (length (in_messages input) <? 1)%nat; simpl in H; [| tauto].
      destruct H as [[=] | []]. }
    apply in_app_or in H as [H | H].
    { apply Hidx in H as (k & m & -> & Hk & Hm). eauto. }
    apply in_app_or in H as [H | H].
    + destruct (in_temperature input); simpl in H; [| tauto].
      apply temperature_issues_path in H. discriminate.
    + destruct (in_maxTokens input); simpl in H; [| tauto].
      apply maxTokens_issues_path in H. discriminate.
  - intros (m & Hm & Hrec). apply in_or_app. right. apply in_or_app. left.
    apply Hidx. exists j, m. auto.
Qed.

Lemma role_issue_index_witness :
  In (mkZodIssue [Key "messages"; Idx 1; Key "role"] invalid_enum_value)
     [ mkZodIssue [Key "messages"; Idx 1; Key "role"] invalid_enum_value;
       mkZodIssue [Key "temperature"] too_big;
       mkZodIssue [Key "maxTokens"] too_small ]
  <-> exists m,
        [mkMessageInput "user" "hi"; mkMessageInput "tool" "x"] !! 1%nat = Some m
        /\ ~ Spec.recognized (in_role m).
Proof.
  apply (role_issue_index
           (mkChatRequestInput None
              [mkMessageInput "user" "hi"; mkMessageInput "tool" "x"]
              None (Some 3%Q) (Some 0%Q) None)
           (mkZodError
              [ mkZodIssue [Key "messages"; Idx 1; Key "role"] invalid_enum_value;
                mkZodIssue [Key "temperature"] too_big;
                mkZodIssue [Key "maxTokens"] too_small ])
           1%nat).
  reflexivity.
Defined.

End ValidatorMore.

(** ** What the adapters pass on *)

Section AdapterStreams.

Lemma text_of_app (a b : list StreamChunk) :
  Spec.text_of (a ++ b) = (Spec.text_of a ++ Spec.text_of b)%string.
Proof.
  unfold Spec.text_of. rewrite List.filter_app, map_app.
  induction (map chunk_content (List.filter (fun c => negb (done c)) a))
    as [| x l IH]; simpl; [reflexivity |].
  rewrite IH. symmetry. apply string_app_assoc.
Qed.

Lemma openai_on_chunk_text (chunk : OpenAI.CompletionChunk) :
  Spec.text_of (OpenAI.on_chunk chunk) = Sent.openai_text chunk.
Proof.
  unfold OpenAI.on_chunk, Sent.openai_text.
  rewrite text_of_app.
  assert (Hfin : forall l : list StreamChunk,
             Forall (fun c => done c = true) l -> Spec.text_of l = "").
  { intros l Hl. unfold Spec.text_of. induction Hl as [| c l Hc _ IH];
      simpl; [reflexivity |]. rewrite Hc. exact IH. }
  rewrite (Hfin (if JS.truthy _ then _ else _)).
  2:{ destruct (JS.truthy _); repeat constructor. }
  rewrite string_app_nil_r.
  destruct (head (OpenAI.choices chunk)) as [choice |]; simpl; [| reflexivity].
  destruct (OpenAI.delta_content choice) as [text |]; simpl; [| reflexivity].
  destruct (String.eqb_spec text "") as [-> | Hne]; simpl; [reflexivity |].
  unfold Spec.text_of; simpl. apply string_app_nil_r.
Qed.

Lemma openai_on_chunk_shape (chunk : OpenAI.CompletionChunk) :
  Forall (fun c => if done c then chunk_content c = ""
                   else chunk_content c <> "")
         (OpenAI.on_chunk chunk)
  /\ length (List.filter done (OpenAI.on_chunk chunk))
     = (if Sent.openai_finished chunk then 1 else 0)%nat.
Proof.
  unfold OpenAI.on_chunk, Sent.openai_finished.
  destruct (JS.truthy (head (OpenAI.choices chunk) ≫= OpenAI.finish_reason));
    destruct (OpenAI.delta_content <$> head (OpenAI.choices chunk)) as [[text |] |];
    simpl; try (split; [repeat constructor | reflexivity]).
  - destruct (String.eqb_spec text ""); simpl;
      (split; [repeat constructor; simpl; auto | reflexivity]).
  - destruct (String.eqb_spec text ""); simpl;
      (split; [repeat constructor; simpl; auto | reflexivity]).
Qed.

Lemma filter_length_flat_map {A B} (f : A -> list B) (p : B -> bool)
  (q : A -> bool) (l : list A) :
  (forall x, length (List.filter p (f x)) = if q x then 1%nat else 0%nat) ->
  length (List.filter p (flat_map f l)) = length (List.filter q l).
Proof.
  intros H. induction l as [| x l IH]; simpl; [reflexivity |].
  rewrite List.filter_app, length_app, H, IH. destruct (q x); reflexivity.
Qed.

(** The stream of the OpenAI adapter carries the text of the backend's
    chunks, all of it and in order, in content chunks that are never empty;
    it has one final chunk, without content, for each backend chunk with a
    finish reason; and it closes exactly when the backend's iteration ends
    without an exception. *)
Theorem openai_stream_shape (backend : OpenAI.Backend)
  (params : OpenAI.CreateParams) (stream : AsyncIterable OpenAI.CompletionChunk) :
  OpenAI.create_stream backend params = Ok stream ->
  Spec.text_of (enqueued (OpenAI.start backend params))
  = Sent.concat_text (map Sent.openai_text (items stream))
  /\ Forall (fun c => if done c then chunk_content c = ""
                      else chunk_content c <> "")
            (enqueued (OpenAI.start backend params))
  /\ length (List.filter done (enqueued (OpenAI.start backend params)))
     = length (List.filter Sent.openai_finished (items stream))
  /\ (ending (OpenAI.start backend params) = Closed <-> thrown stream = None).
Proof.
  intros Hcreate. unfold OpenAI.start. rewrite Hcreate. simpl.
  split; [| split; [| split]].
  - induction (items stream) as [| chunk rest IH]; simpl; [reflexivity |].
    rewrite text_of_app, openai_on_chunk_text, IH. reflexivity.
  - induction (items stream) as [| chunk rest IH]; simpl; [constructor |].
    apply Forall_app. split; [apply openai_on_chunk_shape | exact IH].
  - apply filter_length_flat_map. intros x. apply openai_on_chunk_shape.
  - destruct (thrown stream); split; congruence.
Qed.

Lemma openai_stream_shape_witness :
  Spec.text_of (enqueued (OpenAI.start Examples.openai_backend
                            (OpenAI.mkCreateParams "gpt-4o-mini" [] (7 # 10)%Q
                               None true true)))
  = "Hello".
Proof.
  apply (openai_stream_shape Examples.openai_backend
           (OpenAI.mkCreateParams "gpt-4o-mini" [] (7 # 10)%Q None true true)
           (mkIter Examples.openai_chunks None)).
  reflexivity.
Defined.

Lemma openai_unfinished_no_final (l : list OpenAI.CompletionChunk) :
  Forall (fun chunk => Sent.openai_finished chunk = false) l ->
  Forall (fun c => done c = false) (flat_map OpenAI.on_chunk l).
Proof.
  induction 1 as [| chunk l Hc _ IH]; simpl; [constructor |].
  apply Forall_app. split; [| exact IH].
  unfold OpenAI.on_chunk. unfold Sent.openai_finished in Hc. rewrite Hc.
  rewrite app_nil_r.
  destruct (OpenAI.delta_content <$> head (OpenAI.choices chunk)) as [[text |] |];
    try constructor.
  destruct (JS.truthy (Some text)); repeat constructor.
Qed.

(** When the backend marks the end once, on its last chunk, the stream of
    the OpenAI adapter has exactly one final chunk and it is the last one;
    it carries that chunk's finish reason and usage. *)
Theorem openai_single_final_last (backend : OpenAI.Backend)
  (params : OpenAI.CreateParams) (init : list OpenAI.CompletionChunk)
  (last_chunk : OpenAI.CompletionChunk) (exn : option SdkError) :
  OpenAI.create_stream backend params = Ok (mkIter (init ++ [last_chunk]) exn) ->
  Forall (fun chunk => Sent.openai_finished chunk = false) init ->
  Sent.openai_finished last_chunk = true ->
  exists contents final,
    enqueued (OpenAI.start backend params) = contents ++ [final]
    /\ Forall (fun c => done c = false) contents
    /\ done final = true
    /\ finishReason final = head (OpenAI.choices last_chunk) ≫= OpenAI.finish_reason
    /\ usage final = OpenAI.usage_of <$> OpenAI.chunk_usage last_chunk.
Proof.
  intros Hcreate Hinit Hlast. unfold OpenAI.start. rewrite Hcreate. simpl.
  rewrite flat_map_app. simpl. rewrite app_nil_r.
  unfold OpenAI.on_chunk at 2. unfold Sent.openai_finished in Hlast. rewrite Hlast.
  rewrite app_assoc. do 2 eexists. split; [reflexivity |].
  split; [| simpl; auto].
  apply Forall_app. split; [apply openai_unfinished_no_final, Hinit |].
  destruct (OpenAI.delta_content <$> head (OpenAI.choices last_chunk)) as [[text |] |];
    try constructor.
  destruct (JS.truthy (Some text)); repeat constructor.
Qed.

Lemma openai_single_final_last_witness :
  exists contents final,
    enqueued (OpenAI.start Examples.openai_backend
                (OpenAI.mkCreateParams "gpt-4o-mini" [] (7 # 10)%Q None true true))
    = contents ++ [final]
    /\ Forall (fun c => done c = false) contents
    /\ done final = true
    /\ finishReason final = Some "stop"
    /\ usage final = None.
Proof.
  apply (openai_single_final_last Examples.openai_backend
           (OpenAI.mkCreateParams "gpt-4o-mini" [] (7 # 10)%Q None true true)
           (firstn 2 Examples.openai_chunks)
           (OpenAI.mkCompletionChunk [OpenAI.mkChunkChoice None (Some "stop")]
              "gpt-4o-mini" None)
           None).
  - reflexivity.
  - repeat constructor.
  - reflexivity.
Defined.

(** The loop of the Anthropic adapter, when [finalMessage()] resolves. *)
Lemma anthropic_process_ok (message : Anthropic.AMessage)
  (evs : list Anthropic.StreamEvent) :
  forall usage_var,
    Spec.text_of (fst (Anthropic.process (Ok message) evs usage_var))
    = Sent.concat_text (map Sent.anthropic_text evs)
    /\ length (List.filter done (fst (Anthropic.process (Ok message) evs usage_var)))
       = length (List.filter Sent.anthropic_stopped evs)
    /\ length (List.filter (fun c => negb (done c))
                 (fst (Anthropic.process (Ok message) evs usage_var)))
       = length (List.filter Sent.anthropic_is_text evs)
    /\ snd (Anthropic.process (Ok message) evs usage_var) = None.
Proof.
  induction evs as [| ev rest IH]; intros usage_var; simpl; [auto |].
  destruct ev as [[text |] | [out_tokens |] | |]; simpl; try apply IH.
  - specialize (IH usage_var).
    destruct (Anthropic.process (Ok message) rest usage_var) as [out exn].
    simpl in *. destruct IH as (Ht & Hd & Hn & He).
    unfold Spec.text_of in *. simpl. rewrite Ht, Hd, Hn. auto.
  - specialize (IH (Some (Anthropic.usage_of (Anthropic.a_usage message)))).
    destruct (Anthropic.process (Ok message) rest _) as [out exn].
    simpl in *. destruct IH as (Ht & Hd & Hn & He).
    unfold Spec.text_of in *. simpl. rewrite Ht, Hd, Hn. auto.
Qed.

(** The loop of the Anthropic adapter, when [finalMessage()] rejects:
    nothing is marked final. *)
Lemma anthropic_process_err (e : SdkError) (evs : list Anthropic.StreamEvent) :
  forall usage_var,
    Forall (fun c => done c = false)
           (fst (Anthropic.process (Err e) evs usage_var))
    /\ (snd (Anthropic.process (Err e) evs usage_var)
        = if existsb Sent.anthropic_stopped evs then Some e else None).
Proof.
  induction evs as [| ev rest IH]; intros usage_var; simpl; [auto |].
  destruct ev as [[text |] | [out_tokens |] | |]; simpl; try apply IH.
  - specialize (IH usage_var).
    destruct (Anthropic.process (Err e) rest usage_var) as [out exn].
    simpl in *. destruct IH. split; [constructor; auto | auto].
  - auto.
Qed.

(** The stream of the Anthropic adapter, when the final message is
    available, carries the text of the backend's text deltas, all of it
    and in order, one content chunk for each; it has one final chunk for
    each [message_stop]; and it closes exactly when the backend's iteration
    ends without an exception.  When the final message is not available,
    no chunk is marked final, and the stream ends in an error as soon as a
    [message_stop] arrives. *)
Theorem anthropic_stream_shape (backend : Anthropic.Backend)
  (params : Anthropic.CreateParams) (stream : Anthropic.MessageStream) :
  Anthropic.messages_stream backend params = Ok stream ->
  match Anthropic.finalMessage stream with
  | Ok _ =>
      Spec.text_of (enqueued (Anthropic.start backend params))
      = Sent.concat_text (map Sent.anthropic_text (items (Anthropic.events stream)))
      /\ length (List.filter (fun c => negb (done c))
                   (enqueued (Anthropic.start backend params)))
         = length (List.filter Sent.anthropic_is_text
                     (items (Anthropic.events stream)))
      /\ length (List.filter done (enqueued (Anthropic.start backend params)))
         = length (List.filter Sent.anthropic_stopped
                     (items (Anthropic.events stream)))
      /\ (ending (Anthropic.start backend params) = Closed
          <-> thrown (Anthropic.events stream) = None)
  | Err e =>
      Forall (fun c => done c = false) (enqueued (Anthropic.start backend params))
      /\ (existsb Sent.anthropic_stopped (items (Anthropic.events stream)) = true ->
          ending (Anthropic.start backend params)
          = Errored (Anthropic.wrap_error e))
  end.
Proof.
  intros Hcreate. unfold Anthropic.start. rewrite Hcreate.
  destruct (Anthropic.finalMessage stream) as [message | e].
  - pose proof (anthropic_process_ok message (items (Anthropic.events stream)) None)
      as (Ht & Hd & Hn & He).
    destruct (Anthropic.process (Ok message) _ None) as [out exn].
    simpl in *. subst exn. simpl. repeat split; auto.
    + destruct (thrown (Anthropic.events stream)); congruence.
    + destruct (thrown (Anthropic.events stream)); congruence.
  - pose proof (anthropic_process_err e (items (Anthropic.events stream)) None)
      as (Hf & He).
    destruct (Anthropic.process (Err e) _ None) as [out exn].
    simpl in *. subst exn.
    destruct (existsb Sent.anthropic_stopped (items (Anthropic.events stream)));
      simpl; split; auto; discriminate.
Qed.

Lemma anthropic_stream_shape_witness :
  Spec.text_of (enqueued (Anthropic.start Examples.anthropic_backend
                            (Anthropic.mkCreateParams "claude" None [] (7 # 10)%Q
                               4096%Q)))
  = "Hello"
  /\ length (List.filter done
               (enqueued (Anthropic.start Examples.anthropic_backend
                            (Anthropic.mkCreateParams "claude" None [] (7 # 10)%Q
                               4096%Q))))
     = 1%nat.
Proof.
  destruct (anthropic_stream_shape Examples.anthropic_backend
              (Anthropic.mkCreateParams "claude" None [] (7 # 10)%Q 4096%Q)
              (Anthropic.mkMessageStream (mkIter Examples.anthropic_events None)
                 (Ok Examples.anthropic_message)) eq_refl)
    as (Ht & _ & Hd & _).
  split; [exact Ht | exact Hd].
Defined.

End AdapterStreams.


(** ** Requests and errors of the adapters *)

Section AdapterCalls.





(** The errors that come out of an adapter, thrown by [chat], thrown by
    [chatStream] or put on its stream, are never the configuration error;
    an [LLMAPIError] among them names the adapter it comes from. *)
Theorem adapter_errors_name_adapter (net : LLM.Network) (p : LLM.LLMProvider)
  (input : ChatRequestInput) :
  (forall e, fst (LLM.provider_chat net p input) = Err e -> Sent.adapter_error p e)
  /\ (forall e, fst (LLM.provider_chatStream net p input) = Err e ->
                Sent.adapter_error p e)
  /\ (forall s e, fst (LLM.provider_chatStream net p input) = Ok s ->
                  ending s = Errored e -> Sent.adapter_error p e).
Proof.
  destruct p as [q | q]; simpl.
  - unfold OpenAI.chat, OpenAI.chatStream, OpenAI.start.
    destruct (OpenAI.client q) as [key |]; simpl;
      [| split_and!; intros; try discriminate;
         match goal with H : Err _ = Err _ |- _ => injection H as <- end;
         reflexivity].
    destruct (ChatSchema_parse input) as [request | z]; simpl;
      [| split_and!; intros; try discriminate;
         match goal with H : Err _ = Err _ |- _ => injection H as <- end;
         exact I].
    split_and!.
    + intros e. destruct (OpenAI.create _ _) as [response | err]; simpl.
      * destruct (OpenAI.completion_choices response); [| discriminate].
        intros [= <-]. reflexivity.
      * intros [= <-]. destruct err; simpl; auto.
    + discriminate.
    + intros s e [= <-].
      destruct (OpenAI.create_stream _ _) as [stream | err]; simpl.
      * destruct (thrown stream) as [err |]; [| discriminate].
        intros [= <-]. destruct err; simpl; auto.
      * intros [= <-]. destruct err; simpl; auto.
  - unfold Anthropic.chat, Anthropic.chatStream, Anthropic.start.
    destruct (Anthropic.client q) as [key |]; simpl;
      [| split_and!; intros; try discriminate;
         match goal with H : Err _ = Err _ |- _ => injection H as <- end;
         reflexivity].
    destruct (ChatSchema_parse input) as [request | z]; simpl;
      [| split_and!; intros; try discriminate;
         match goal with H : Err _ = Err _ |- _ => injection H as <- end;
         exact I].
    split_and!.
    + intros e. destruct (Anthropic.messages_create _ _) as [response | err]; simpl.
      * discriminate.
      * intros [= <-]. destruct err; simpl; auto.
    + discriminate.
    + intros s e [= <-].
      destruct (Anthropic.messages_stream _ _) as [stream | err]; simpl.
      * destruct (Anthropic.process _ _ None) as [out [err |]]; simpl.
        -- intros [= <-]. destruct err; simpl; auto.
        -- destruct (thrown (Anthropic.events stream)) as [err |]; [| discriminate].
           intros [= <-]. destruct err; simpl; auto.
      * intros [= <-]. destruct err; simpl; auto.
Qed.

(** An adapter sends one request when it has a credential and the input is
    valid, and none otherwise, in [chat] and in [chatStream] alike. *)
Theorem adapter_sends_one_request (env : Env) (net : LLM.Network)
  (type : LLM.ProviderType) (input : ChatRequestInput) :
  length (snd (LLM.provider_chat net (LLM.getProviderByType env type) input))
  = (if LLM.isConfigured (LLM.getProviderByType env type)
        && is_ok (ChatSchema_parse input) then 1 else 0)%nat
  /\ length (snd (LLM.provider_chatStream net (LLM.getProviderByType env type) input))
     = (if LLM.isConfigured (LLM.getProviderByType env type)
           && is_ok (ChatSchema_parse input) then 1 else 0)%nat.
Proof.
  destruct type; simpl.
  - unfold OpenAI.chat, OpenAI.chatStream, OpenAI.isConfigured.
    destruct (OpenAI.client (OpenAI.new env)); simpl; [| auto].
    destruct (ChatSchema_parse input); simpl; auto.
  - unfold Anthropic.chat, Anthropic.chatStream, Anthropic.isConfigured,
      Anthropic.new; simpl.
    destruct (JS.or_null (ANTHROPIC_API_KEY env)); simpl; [| auto].
    destruct (ChatSchema_parse input); simpl; auto.
Qed.

(** The result of the non-streaming [chat] of the Anthropic adapter: the
    text blocks of the response in order, a usage whose total is the sum
    of the two counts, and a finish reason that is [stop], [length] or
    none. *)
Theorem anthropic_chat_result (backend : Anthropic.Backend)
  (p : Anthropic.AnthropicProvider) (input : ChatRequestInput)
  (response : ChatResponse) :
  fst (Anthropic.chat backend p input) = Ok response ->
  totalTokens (resp_usage response)
  = promptTokens (resp_usage response) + completionTokens (resp_usage response)
  /\ (resp_finishReason response = None
      \/ resp_finishReason response = Some "stop"
      \/ resp_finishReason response = Some "length")
  /\ exists params message,
       Anthropic.messages_create backend params = Ok message
       /\ resp_model response = Anthropic.a_model message
       /\ promptTokens (resp_usage response)
          = Anthropic.input_tokens (Anthropic.a_usage message)
       /\ completionTokens (resp_usage response)
          = Anthropic.output_tokens (Anthropic.a_usage message).
Proof.
  unfold Anthropic.chat.
  destruct (Anthropic.client p); [| discriminate].
  destruct (ChatSchema_parse input) as [request | z]; [| discriminate].
  simpl.
  destruct (Anthropic.messages_create backend _) as [message | err] eqn:Hc;
    [| discriminate].
  intros [= <-]. simpl. split; [reflexivity |]. split.
  - unfold Anthropic.mapStopReason.
    destruct (Anthropic.stop_reason message) as [r |]; [| auto].
    destruct (String.eqb r ""); [auto |].
    destruct (String.eqb r "end_turn"); [auto |].
    destruct (String.eqb r "max_tokens"); [auto |].
    destruct (String.eqb r "stop_sequence"); auto.
  - eauto 10.
Qed.

Lemma anthropic_chat_result_witness :
  totalTokens (mkTokenUsage 3 2 5) = promptTokens (mkTokenUsage 3 2 5)
                                     + completionTokens (mkTokenUsage 3 2 5).
Proof.
  apply (anthropic_chat_result Examples.anthropic_backend
           (Anthropic.new Examples.env_anthropic) Examples.hi
           (mkChatResponse "Hello" "claude-3-5-sonnet-20241022"
              (mkTokenUsage 3 2 5) (Some "stop"))).
  reflexivity.
Defined.

End AdapterCalls.

(** ** The selector *)

Section SelectorMore.

Lemma truthy_some (o : option string) :
  JS.truthy o = true <-> exists k, o = Some k /\ k <> "".
Proof.
  destruct o as [k |]; simpl.
  - destruct (String.eqb_spec k ""); simpl; split.
    + discriminate.
    + intros (k' & [= <-] & Hk). contradiction.
    + eauto.
    + reflexivity.
  - split; [discriminate | intros (k & [=] & _)].
Qed.

Lemma openai_configured_key (env : Env) :
  OpenAI.isConfigured (OpenAI.new env) = JS.truthy (OPENAI_API_KEY env)
  /\ (JS.truthy (OPENAI_API_KEY env) = true ->
      OpenAI.client (OpenAI.new env) = OPENAI_API_KEY env).
Proof.
  unfold OpenAI.isConfigured, OpenAI.new; simpl.
  destruct (JS.truthy (OPENAI_API_KEY env)) eqn:H; split; auto.
  - apply truthy_some in H as (k & -> & _). reflexivity.
  - discriminate.
Qed.

Lemma anthropic_configured_key (env : Env) :
  Anthropic.isConfigured (Anthropic.new env) = JS.truthy (ANTHROPIC_API_KEY env)
  /\ (JS.truthy (ANTHROPIC_API_KEY env) = true ->
      Anthropic.client (Anthropic.new env) = ANTHROPIC_API_KEY env).
Proof.
  unfold Anthropic.isConfigured, Anthropic.new; simpl.
  destruct (ANTHROPIC_API_KEY env) as [k |]; simpl; [| split; [reflexivity | discriminate]].
  destruct (String.eqb k ""); simpl; split; auto. discriminate.
Qed.

(** [getProvider] gives the provider that [LLM_PROVIDER] names, whatever
    its case and [openai] when it is not set, and only when the API key of
    that provider is a non-empty string; otherwise it throws the
    configuration error.  The key of the other provider plays no part. *)
Theorem getProvider_choice (env : Env) :
  let name := JS.toLowerCase (JS.or_string (LLM_PROVIDER env) "openai") in
  match LLM.getProvider env with
  | Ok p =>
      (name = "openai" /\ p = LLM.openai_provider (OpenAI.new env)
       /\ exists key, OPENAI_API_KEY env = Some key /\ key <> ""
                      /\ OpenAI.client (OpenAI.new env) = Some key)
      \/ (name = "anthropic" /\ p = LLM.anthropic_provider (Anthropic.new env)
          /\ exists key, ANTHROPIC_API_KEY env = Some key /\ key <> ""
                         /\ Anthropic.client (Anthropic.new env) = Some key)
  | Err e =>
      (exists message, e = LLMProviderError message)
      /\ (name = "openai" -> JS.truthy (OPENAI_API_KEY env) = false)
      /\ (name = "anthropic" -> JS.truthy (ANTHROPIC_API_KEY env) = false)
  end.
Proof.
  intros name. unfold LLM.getProvider. fold name.
  destruct (openai_configured_key env) as [Ho Hok].
  destruct (anthropic_configured_key env) as [Ha Hak].
  destruct (String.eqb_spec name "openai") as [Hn | Hn].
  - simpl. rewrite Ho.
    destruct (JS.truthy (OPENAI_API_KEY env)) eqn:Hkey.
    + left. split_and!; auto.
      pose proof (proj1 (truthy_some _) Hkey) as (key & Hk & Hne).
      exists key. split_and!; auto;
        (etransitivity; [exact (Hok eq_refl) | exact Hk]).
    + split_and!; eauto. rewrite Hn. discriminate.
  - destruct (String.eqb_spec name "anthropic") as [Hm | Hm].
    + simpl. rewrite Ha.
      destruct (JS.truthy (ANTHROPIC_API_KEY env)) eqn:Hkey.
      * right. split_and!; auto.
        pose proof (proj1 (truthy_some _) Hkey) as (key & Hk & Hne).
        exists key. split_and!; auto;
          (etransitivity; [exact (Hak eq_refl) | exact Hk]).
      * split_and!; eauto. intros; contradiction.
    + split_and!; eauto; intros; contradiction.
Qed.

Lemma selected_has_client (env : Env) (p : LLM.LLMProvider) :
  LLM.getProvider env = Ok p ->
  match p with
  | LLM.openai_provider q => exists key, OpenAI.client q = Some key
  | LLM.anthropic_provider q => exists key, Anthropic.client q = Some key
  end.
Proof.
  intros H. apply selector_refuses_unconfigured in H. destruct p as [q | q]; simpl in H.
  - unfold OpenAI.isConfigured in H. destruct (OpenAI.client q); [eauto | discriminate].
  - unfold Anthropic.isConfigured in H.
    destruct (Anthropic.apiKey q); [| discriminate].
    destruct (Anthropic.client q); [eauto | discriminate].
Qed.

(** A valid request and an available provider: the adapter is entered
    once and sends one request, in [chat] and in [chatStream], and
    [chatStream] returns a stream. *)
Lemma selected_calls (env : Env) (net : LLM.Network) (input : ChatRequestInput)
  (request : ChatRequest) (p : LLM.LLMProvider) :
  ChatSchema_parse input = Ok request -> LLM.getProvider env = Ok p ->
  (exists call,
      snd (LLM.chat env net input)
      = [LLM.adapter_chat (LLM.getName p); LLM.network call])
  /\ (exists s call,
         LLM.chatStream env net input
         = (Ok s, [LLM.adapter_chatStream (LLM.getName p); LLM.network call])).
Proof.
  intros Hparse Hp. unfold LLM.chat, LLM.chatStream. rewrite Hparse, Hp.
  rewrite (parse_with_stream input request (Some true) Hparse).
  pose proof (parse_with_stream input request (Some true) Hparse) as Hstream.
  apply parse_of_parsed in Hstream. apply parse_of_parsed in Hparse.
  apply selected_has_client in Hp.
  destruct p as [q | q]; destruct Hp as [key Hkey];
    unfold LLM.provider_chat, LLM.provider_chatStream.
  - unfold OpenAI.chat, OpenAI.chatStream. rewrite Hkey, Hparse, Hstream.
    simpl. eauto.
  - unfold Anthropic.chat, Anthropic.chatStream. rewrite Hkey, Hparse, Hstream.
    simpl. eauto.
Qed.

(** The selector's [chat] and [chatStream] in full.  An invalid request
    is refused with the validator's error, and a valid one with the
    selector's error when the provider is not available, in both cases
    before any adapter is entered.  Otherwise the adapter of the chosen
    provider is entered once and sends one request: the adapter's own
    validation never refuses what the selector passes on, and
    [chatStream] returns a stream, whatever the backend does. *)
Theorem selector_calls (env : Env) (net : LLM.Network) (input : ChatRequestInput) :
  match ChatSchema_parse input, LLM.getProvider env with
  | Err z, _ =>
      LLM.chat env net input = (Err (ZodErr z), [])
      /\ exists z', LLM.chatStream env net input = (Err (ZodErr z'), [])
  | Ok _, Err e =>
      LLM.chat env net input = (Err e, [])
      /\ LLM.chatStream env net input = (Err e, [])
  | Ok _, Ok p =>
      (exists call,
          snd (LLM.chat env net input)
          = [LLM.adapter_chat (LLM.getName p); LLM.network call])
      /\ (exists s call,
             LLM.chatStream env net input
             = (Ok s, [LLM.adapter_chatStream (LLM.getName p); LLM.network call]))
  end.
Proof.
  destruct (ChatSchema_parse input) as [request | z] eqn:Hparse.
  - destruct (LLM.getProvider env) as [p | e] eqn:Hp.
    + eapply selected_calls; eassumption.
    + unfold LLM.chat, LLM.chatStream.
      rewrite Hparse, Hp, (parse_with_stream input request (Some true) Hparse).
      split; reflexivity.
  - unfold LLM.chat, LLM.chatStream. rewrite Hparse.
    assert (Hs : exists z',
               ChatSchema_parse
                 {| in_system := in_system input; in_messages := in_messages input;
                    in_stream := Some true; in_temperature := in_temperature input;
                    in_maxTokens := in_maxTokens input; in_model := in_model input |}
               = Err z').
    { destruct (ChatSchema_parse {| in_system := in_system input |})
        as [request |z'] eqn:Hs; [| eauto].
      apply (parse_with_stream _ _ (in_stream input)) in Hs. simpl in Hs.
      destruct input; simpl in *. congruence. }
    destruct Hs as [z' ->]. destruct (LLM.getProvider env); eauto.
Qed.

End SelectorMore.

(** ** [collectStream] *)

Section CollectStream.

Lemma collectStream_fold (chunks : list StreamChunk) :
  forall acc,
    LLMStream.content (fold_left LLMStream.collect_step chunks acc)
    = (LLMStream.content acc ++ Spec.text_of chunks)%string
    /\ LLMStream.usage (fold_left LLMStream.collect_step chunks acc)
       = match Spec.final_chunk chunks with
         | Some final => usage final
         | None => LLMStream.usage acc
         end.
Proof.
  unfold Spec.text_of, Spec.final_chunk.
  induction chunks as [| ch rest IH]; intros acc; simpl.
  - rewrite string_app_nil_r. auto.
  - destruct (IH (LLMStream.collect_step acc ch)) as [-> ->].
    unfold LLMStream.collect_step.
    destruct (done ch) eqn:Hd; simpl.
    + rewrite last_cons. destruct (last (List.filter done rest)); auto.
    + rewrite string_app_assoc. auto.
Qed.

(** [collectStream] rejects with the error of a stream that fails, and on
    a stream that closes it returns the text of the content chunks, in
    order, with the usage of the last final chunk, or none when no chunk
    is final.  Its text and its completion tokens are the ones that the
    collector of the handler stores for the same stream. *)
Theorem collectStream_result (s : ReadableStream StreamChunk) :
  match LLMStream.collectStream s with
  | Err e => ending s = Errored e
  | Ok r =>
      ending s = Closed
      /\ LLMStream.content r = Spec.text_of (enqueued s)
      /\ LLMStream.usage r = Spec.final_chunk (enqueued s) ≫= usage
      /\ LLMStream.content r = Route.assistantContent (Route.collect (enqueued s))
      /\ JS.or_zero (completionTokens <$> LLMStream.usage r)
         = Route.completionTokens (Route.collect (enqueued s))
  end.
Proof.
  unfold LLMStream.collectStream. destruct (ending s); [| reflexivity].
  destruct (collectStream_fold (enqueued s) (LLMStream.mkCollected "" None None))
    as [Hc Hu].
  simpl in Hc, Hu.
  assert (Hu' : LLMStream.usage
                  (fold_left LLMStream.collect_step (enqueued s)
                     (LLMStream.mkCollected "" None None))
                = Spec.final_chunk (enqueued s) ≫= usage).
  { rewrite Hu. destruct (Spec.final_chunk (enqueued s)); reflexivity. }
  split_and!; auto.
  - rewrite collect_text. exact Hc.
  - rewrite Hu', collect_tokens.
    destruct (Spec.final_chunk (enqueued s)) as [final |]; simpl; [| reflexivity].
    apply or_zero_usage.
Qed.

End CollectStream.

(** ** The handler, again *)

Section HandlerMore.
Import Prisma Route.








Lemma POST_saved_text_witness :
  exists validated llmStream evs user_row assistant_row,
    LLM.chatStream Examples.env_openai Examples.net (to_input validated)
    = (Ok llmStream, evs)
    /\ ending llmStream = Closed
    /\ rows (tables (POST Examples.env_openai Examples.net Examples.engine
                       Examples.clock (Tee.fair 3) (Ok Examples.body_hi)
                       Examples.empty_db))
       = rows Examples.empty_db ++ [user_row; assistant_row]
    /\ row_chatId assistant_row = chatId Examples.body_hi
    /\ row_role assistant_row = "assistant"
    /\ row_content assistant_row = Spec.text_of (enqueued llmStream).
Proof.
  apply (POST_saved_text Examples.env_openai Examples.net Examples.engine
           Examples.clock (Tee.fair 3) Examples.body_hi Examples.empty_db
           "c1" "OpenAI" 5 0 (Some "stop")).
  vm_compute. left. reflexivity.
Defined.

End HandlerMore.

(** ** The repository *)

Section RepositoryProps.
Import Prisma.

Lemma validateMessageRole_ok (role : string) :
  Spec.recognized role -> Repository.validateMessageRole role = Ok tt.
Proof.
  unfold Repository.validateMessageRole.
  intros [-> | [-> | ->]]; reflexivity.
Qed.

Lemma validateMessageRole_err (role : string) :
  ~ Spec.recognized role ->
  Repository.validateMessageRole role = Err (InvalidMessageRoleError role).
Proof.
  unfold Repository.validateMessageRole, Spec.recognized. intros H. simpl.
  destruct (String.eqb_spec role "user"); [tauto |].
  destruct (String.eqb_spec role "assistant"); [tauto |].
  destruct (String.eqb_spec role "system"); [tauto |]. reflexivity.
Qed.

(** [appendMessage] outside a transaction, on an engine that works.  A
    role that is not one of the three is refused before the engine is
    called; a chat that does not exist is reported after the one lookup,
    the tables being untouched; otherwise the message is added after the
    others, with the role, content and tokens given, and the chat's
    [updatedAt] is advanced, its other fields and the other chats being
    left as they were. *)
Theorem appendMessage_result (S : Storage) (chatId : string)
  (messageInput : Repository.CreateMessageInput) (db : Db) :
  (forall n, (n <= 2)%nat -> fails S n = false) ->
  let out := run (Repository.appendMessage S chatId messageInput) db in
  if decide (Spec.recognized (Repository.role messageInput)) then
    match chats db !! chatId with
    | None =>
        out = (db, Err (ChatNotFoundError chatId), [chat_findUnique chatId])
    | Some c =>
        let message :=
          mkRow chatId (Repository.role messageInput)
                (Repository.content messageInput) (Repository.tokens messageInput)
                (now S 1) in
        out = (mkDb (<[chatId := mkChat (chat_id c) (chat_userId c) (chat_title c)
                                        (createdAt c) (now S 2)]> (chats db))
                    (rows db ++ [message]),
               Ok message,
               [ chat_findUnique chatId;
                 message_create chatId (Repository.role messageInput)
                   (Repository.content messageInput)
                   (Repository.tokens messageInput);
                 chat_update chatId ])
    end
  else
    out = (db, Err (InvalidMessageRoleError (Repository.role messageInput)), []).
Proof.
  intros Hengine out. subst out.
  pose proof (Hengine 0%nat ltac:(lia)) as H0.
  pose proof (Hengine 1%nat ltac:(lia)) as H1.
  pose proof (Hengine 2%nat ltac:(lia)) as H2.
  unfold Repository.appendMessage.
  destruct (decide (Spec.recognized (Repository.role messageInput))) as [Hr | Hr].
  - rewrite (validateMessageRole_ok _ Hr).
    unfold run, bind, findUnique, createMessage, update, call, Repository.throw, ret.
    cbn -[lookup insert]. rewrite H0.
    destruct (chats db !! chatId) as [c |] eqn:Hc; cbn -[lookup insert].
    + rewrite H1, Hc. cbn -[lookup insert]. rewrite H2, Hc. destruct db; reflexivity.
    + destruct db; reflexivity.
  - rewrite (validateMessageRole_err _ Hr). destruct db; reflexivity.
Qed.

Lemma appendMessage_result_witness :
  run (Repository.appendMessage Examples.engine "c1"
         (Repository.mkCreateMessageInput "tool" "hi" None)) Examples.empty_db
  = (Examples.empty_db, Err (InvalidMessageRoleError "tool"), []).
Proof.
  apply (appendMessage_result Examples.engine "c1"
           (Repository.mkCreateMessageInput "tool" "hi" None) Examples.empty_db).
  reflexivity.
Defined.

(** [appendMessage] is not all or nothing: its calls are made one by
    one, and when the last one, the update of [updatedAt], throws, the
    caller gets the exception although the message is stored. *)
Theorem appendMessage_not_atomic (S : Storage) (chatId : string)
  (messageInput : Repository.CreateMessageInput) (db : Db) (c : Chat) :
  Spec.recognized (Repository.role messageInput) ->
  chats db !! chatId = Some c ->
  fails S 0 = false -> fails S 1 = false -> fails S 2 = true ->
  exists db',
    run (Repository.appendMessage S chatId messageInput) db
    = (db', Err (StorageError "engine"),
       [ chat_findUnique chatId;
         message_create chatId (Repository.role messageInput)
           (Repository.content messageInput) (Repository.tokens messageInput);
         chat_update chatId ])
    /\ chats db' = chats db
    /\ rows db'
       = rows db
         ++ [ mkRow chatId (Repository.role messageInput)
                    (Repository.content messageInput)
                    (Repository.tokens messageInput) (now S 1) ].
Proof.
  intros Hr Hc H0 H1 H2. unfold Repository.appendMessage.
  rewrite (validateMessageRole_ok _ Hr).
  unfold run, bind, findUnique, createMessage, update, call, Repository.throw, ret.
  cbn -[lookup insert]. rewrite H0, Hc. cbn -[lookup insert].
  rewrite H1, Hc. cbn -[lookup insert]. rewrite H2. cbn -[lookup insert].
  eexists. split; [reflexivity |]. split; reflexivity.
Qed.

Lemma appendMessage_not_atomic_witness :
  exists db', rows db' = [mkRow "c1" "user" "hi" None 1001].
Proof.
  destruct (appendMessage_not_atomic
              (mkStorage (fun n => (n =? 2)%nat) (fun n => 1000 + Z.of_nat n)
                         (fun _ => "generated"))
              "c1" (Repository.mkCreateMessageInput "user" "hi" None)
              (mkDb {["c1" := mkChat "c1" None None 1 1]} [])
              (mkChat "c1" None None 1 1))
    as (db' & _ & _ & Hrows).
  - left. reflexivity.
  - reflexivity.
  - reflexivity.
  - reflexivity.
  - reflexivity.
  - exists db'. exact Hrows.
Defined.

Lemma sum_tokens_fold (messages : list MessageRow) :
  forall acc,
    let t := fold_left Repository.add_tokens messages acc in
    Repository.userTokens t
    = Repository.userTokens acc
      + Stored.tokens_where (Stored.has_role "user") messages
    /\ Repository.assistantTokens t
       = Repository.assistantTokens acc
         + Stored.tokens_where (Stored.has_role "assistant") messages
    /\ Repository.systemTokens t
       = Repository.systemTokens acc
         + Stored.tokens_where (Stored.has_role "system") messages
    /\ Repository.totalTokens t
       = Repository.totalTokens acc + Stored.tokens_where (fun _ => true) messages.
Proof.
  unfold Stored.tokens_where, Stored.has_role.
  induction messages as [| r rest IH]; intros acc; simpl.
  - rewrite !Z.add_0_r. auto.
  - destruct (IH (Repository.add_tokens acc r)) as (-> & -> & -> & ->).
    unfold Repository.add_tokens.
    destruct (String.eqb_spec (row_role r) "user") as [Hu | Hu].
    + rewrite Hu. simpl. split_and!; lia.
    + destruct (String.eqb_spec (row_role r) "assistant") as [Ha | Ha].
      * rewrite Ha. simpl. split_and!; lia.
      * destruct (String.eqb_spec (row_role r) "system") as [Hs | Hs]; simpl;
          split_and!; lia.
Qed.

Lemma tokens_by_role (messages : list MessageRow) :
  Stored.tokens_where (fun _ => true) messages
  = Stored.tokens_where (Stored.has_role "user") messages
    + Stored.tokens_where (Stored.has_role "assistant") messages
    + Stored.tokens_where (Stored.has_role "system") messages
    + Stored.tokens_where Stored.other_role messages.
Proof.
  unfold Stored.tokens_where, Stored.other_role, Stored.has_role.
  induction messages as [| r rest IH]; simpl; [reflexivity |].
  rewrite IH.
  destruct (String.eqb_spec (row_role r) "user") as [Hu | Hu].
  - rewrite Hu. simpl. lia.
  - destruct (String.eqb_spec (row_role r) "assistant") as [Ha | Ha].
    + rewrite Ha. simpl. lia.
    + destruct (String.eqb_spec (row_role r) "system") as [Hs | Hs]; simpl; lia.
Qed.

Lemma tokens_other_recognized (messages : list MessageRow) :
  Forall (fun r => Spec.recognized (row_role r)) messages ->
  Stored.tokens_where Stored.other_role messages = 0.
Proof.
  unfold Stored.tokens_where, Stored.other_role, Stored.has_role.
  induction 1 as [| r rest Hr _ IH]; simpl; [reflexivity |].
  destruct Hr as [-> | [-> | ->]]; simpl; exact IH.
Qed.

(** [computeTokenTotals] on an engine that works: a chat that does not
    exist is reported, and otherwise each of the three counts is the sum
    of the tokens of the chat's messages of that role, a message without
    a count adding nothing, and the total is the sum over all the
    messages of the chat.  The total is the sum of the three counts plus
    the tokens of the messages whose role is none of the three, so it is
    their sum when every role is one of the three.  The tables are not
    changed. *)
Theorem computeTokenTotals_result (S : Storage) (chatId : string) (db : Db) :
  fails S 0 = false ->
  match chats db !! chatId with
  | None =>
      run (Repository.computeTokenTotals S chatId) db
      = (db, Err (ChatNotFoundError chatId), [chat_findUnique chatId])
  | Some _ =>
      exists totals,
        run (Repository.computeTokenTotals S chatId) db
        = (db, Ok totals, [chat_findUnique chatId])
        /\ Repository.userTokens totals
           = Stored.tokens_where (Stored.has_role "user") (messages_of db chatId)
        /\ Repository.assistantTokens totals
           = Stored.tokens_where (Stored.has_role "assistant") (messages_of db chatId)
        /\ Repository.systemTokens totals
           = Stored.tokens_where (Stored.has_role "system") (messages_of db chatId)
        /\ Repository.totalTokens totals
           = Stored.tokens_where (fun _ => true) (messages_of db chatId)
        /\ Repository.totalTokens totals
           = Repository.userTokens totals + Repository.assistantTokens totals
             + Repository.systemTokens totals
             + Stored.tokens_where Stored.other_role (messages_of db chatId)
        /\ (Forall (fun r => Spec.recognized (row_role r)) (messages_of db chatId) ->
            Repository.totalTokens totals
            = Repository.userTokens totals + Repository.assistantTokens totals
              + Repository.systemTokens totals)
  end.
Proof.
  intros H0. unfold Repository.computeTokenTotals.
  unfold run, bind, findUnique, call, Repository.throw.
  cbn -[lookup]. rewrite H0.
  destruct (chats db !! chatId) as [c |] eqn:Hc; cbn -[lookup].
  - eexists. split; [destruct db; reflexivity |].
    unfold Repository.sum_tokens.
    destruct (sum_tokens_fold (messages_of db chatId)
                (Repository.mkTokenTotals 0 0 0 0)) as (Hu & Ha & Hs & Ht).
    simpl in Hu, Ha, Hs, Ht. rewrite Hu, Ha, Hs, Ht.
    pose proof (tokens_by_role (messages_of db chatId)) as Hsum.
    split_and!; auto.
    intros Hall. rewrite Hsum, (tokens_other_recognized _ Hall). lia.
  - destruct db; reflexivity.
Qed.

Lemma computeTokenTotals_result_witness :
  exists totals,
    run (Repository.computeTokenTotals Examples.engine "c1")
        (mkDb {["c1" := mkChat "c1" None None 1 1]}
              [ mkRow "c1" "user" "hi" None 2; mkRow "c1" "assistant" "Hello" (Some 2) 3 ])
    = (mkDb {["c1" := mkChat "c1" None None 1 1]}
            [ mkRow "c1" "user" "hi" None 2; mkRow "c1" "assistant" "Hello" (Some 2) 3 ],
       Ok totals, [chat_findUnique "c1"])
    /\ Repository.totalTokens totals = 2.
Proof.
  destruct (computeTokenTotals_result Examples.engine "c1"
              (mkDb {["c1" := mkChat "c1" None None 1 1]}
                    [ mkRow "c1" "user" "hi" None 2;
                      mkRow "c1" "assistant" "Hello" (Some 2) 3 ])
              eq_refl)
    as (totals & Hrun & _ & _ & _ & Ht & _).
  exists totals. split; [exact Hrun | exact Ht].
Defined.

(** [deleteChat]: when it returns, the chat it returns is the one that
    was stored under the id, and the chat and its messages are gone, the
    other chats and their messages being left as they were; when it
    throws, it throws [ChatNotFoundError], whatever the engine threw, and
    the tables are untouched. *)
Theorem deleteChat_result (S : Storage) (chatId : string) (db : Db) :
  match Repository.deleteChat S chatId db with
  | (db', Ok c) =>
      fails S 0 = false
      /\ chats db !! chatId = Some c
      /\ chats db' !! chatId = None
      /\ messages_of db' chatId = []
      /\ (forall other, other <> chatId ->
             chats db' !! other = chats db !! other
             /\ messages_of db' other = messages_of db other)
  | (db', Err e) =>
      e = ChatNotFoundError chatId /\ db' = db
      /\ (fails S 0 = true \/ chats db !! chatId = None)
  end.
Proof.
  unfold Repository.deleteChat, Repository.chat_delete.
  destruct (fails S 0) eqn:H0; [auto |].
  destruct (chats db !! chatId) as [c |] eqn:Hc; [| auto].
  split_and!; auto.
  - apply lookup_delete_eq.
  - unfold messages_of. simpl.
    induction (rows db) as [| r rest IH]; simpl; [reflexivity |].
    destruct (String.eqb (row_chatId r) chatId) eqn:Hr; simpl; [exact IH |].
    rewrite Hr. exact IH.
  - intros other Hother. split.
    + simpl. apply lookup_delete_ne. congruence.
    + unfold messages_of. simpl.
      induction (rows db) as [| r rest IH]; simpl; [reflexivity |].
      destruct (String.eqb_spec (row_chatId r) chatId) as [Hr | Hr]; simpl.
      * destruct (String.eqb_spec (row_chatId r) other); [congruence | exact IH].
      * rewrite IH. reflexivity.
Qed.

End RepositoryProps.

(** ** The list of a user's chats *)

Section ChatList.
Import Prisma.

#[local] Instance newer_first_transitive : Transitive Repository.newer_first.
Proof. unfold Repository.newer_first. intros x y z. lia. Qed.

#[local] Instance newer_first_total : Total Repository.newer_first.
Proof. unfold Repository.newer_first. intros x y. lia. Qed.

Lemma elem_of_take_l {A} (n : nat) (l : list A) (x : A) : x ∈ take n l -> x ∈ l.
Proof. intros H. rewrite <- (take_drop n l). apply elem_of_app. auto. Qed.

Lemma elem_of_mine (userId : string) (db : Db) (c : Chat) :
  c ∈ List.filter (fun c => bool_decide (chat_userId c = Some userId))
        (snd <$> map_to_list (chats db))
  <-> chat_userId c = Some userId /\ exists i, chats db !! i = Some c.
Proof.
  rewrite list_elem_of_In, filter_In, <- list_elem_of_In, bool_decide_eq_true.
  rewrite list_elem_of_fmap. split.
  - intros [([i c'] & -> & Hin) Hu]. apply elem_of_map_to_list in Hin. eauto.
  - intros [Hu [i Hi]]. split; [| exact Hu].
    exists (i, c). split; [reflexivity |]. apply elem_of_map_to_list, Hi.
Qed.

(** [getChatsByUserId]: the chats listed are chats of the user, each with
    the number of its messages; there are at most [limit] of them, 50
    when no limit is given; they come with the most recently updated
    first; the ones left out, if any, were updated no later than each of
    the ones listed; and none is left out when the user has no more than
    [limit] chats. *)
Theorem getChatsByUserId_result (S : Storage) (userId : string)
  (limit : option nat) (db : Db) (l : list Repository.ChatWithCount) :
  Repository.getChatsByUserId S userId limit db = Ok l ->
  let mine (c : Chat) :=
    chat_userId c = Some userId /\ exists i, chats db !! i = Some c in
  (length l <= default 50 limit)%nat
  /\ Forall (fun c => mine (Repository.listed c)
                      /\ Repository.message_count c
                         = length (messages_of db (chat_id (Repository.listed c))))
            l
  /\ StronglySorted (fun a b => updatedAt b <= updatedAt a) (Repository.listed <$> l)
  /\ (forall c c', c ∈ Repository.listed <$> l -> mine c' ->
                   c' ∉ Repository.listed <$> l -> updatedAt c' <= updatedAt c)
  /\ ((length l < default 50 limit)%nat ->
      forall c, mine c -> c ∈ Repository.listed <$> l).
Proof.
  unfold Repository.getChatsByUserId.
  destruct (fails S 0); [discriminate |]. intros Heq. injection Heq as <-.
  pose (mine := fun c : Chat =>
                  chat_userId c = Some userId /\ exists i, chats db !! i = Some c).
  set (chats_of_user :=
         List.filter (fun c => bool_decide (chat_userId c = Some userId))
                     (snd <$> map_to_list (chats db))).
  set (sorted := merge_sort Repository.newer_first chats_of_user).
  set (n := default 50%nat limit).
  assert (Hlisted : Repository.listed
                    <$> ((fun c => Repository.mkChatWithCount c
                                     (length (messages_of db (chat_id c))))
                         <$> take n sorted)
                    = take n sorted).
  { rewrite <- list_fmap_compose. apply list_fmap_id. }
  assert (Hsorted : forall c, c ∈ sorted <-> mine c).
  { intros c. unfold sorted. rewrite merge_sort_Permutation. apply elem_of_mine. }
  assert (Hstrong : StronglySorted Repository.newer_first sorted)
    by (apply StronglySorted_merge_sort; apply _).
  rewrite Hlisted. split_and!.
  - rewrite length_fmap, length_take. lia.
  - apply Forall_fmap, Forall_forall. intros c Hc. simpl. split; [| reflexivity].
    apply Hsorted. apply elem_of_take_l with n. exact Hc.
  - rewrite <- (take_drop n sorted) in Hstrong.
    apply StronglySorted_app_1_l in Hstrong. exact Hstrong.
  - intros c c' Hc Hc' Hout. apply Hsorted in Hc'.
    rewrite <- (take_drop n sorted) in Hc', Hstrong.
    apply elem_of_app in Hc' as [Hc' | Hc']; [contradiction |].
    exact (StronglySorted_app_1_elem_of _ _ _ _ _ Hstrong Hc Hc').
  - rewrite length_fmap, length_take. intros Hlen c Hc.
    rewrite take_ge by lia. apply Hsorted, Hc.
Qed.

Lemma getChatsByUserId_result_witness :
  (length [ Repository.mkChatWithCount (mkChat "c2" (Some "u") None 1 7) 0 ] <= 1)%nat.
Proof.
  apply (getChatsByUserId_result Examples.engine "u" (Some 1%nat)
           (mkDb {[ "c1" := mkChat "c1" (Some "u") None 1 5;
                    "c2" := mkChat "c2" (Some "u") None 1 7 ]} [])).
  vm_compute. reflexivity.
Defined.

End ChatList.

(** ** New chats *)

Section NewChat.
Import Prisma.

(** [getOrCreateChat] without an id, or with the empty string for id,
    creates a chat under a generated id, with the user and the title
    given and no messages, and stores nothing else; [getChatById] then
    finds that chat under the generated id. *)
Theorem getOrCreateChat_new (S S' : Storage) (chatId userId title : option string)
  (db : Db) :
  JS.truthy chatId = false ->
  fails S 0 = false -> chats db !! cuid S 0 = None -> fails S' 0 = false ->
  let created := mkChat (cuid S 0) userId title (now S 0) (now S 0) in
  let db' := mkDb (<[cuid S 0 := created]> (chats db)) (rows db) in
  run (ChatRepo.getOrCreateChat S chatId userId title) db
  = (db', Ok (ChatRepo.mkChatWithMessages created []), [chat_create None userId title])
  /\ (messages_of db (cuid S 0) = [] ->
      run (Repository.getChatById S' (cuid S 0)) db'
      = (db', Ok (Some (ChatRepo.mkChatWithMessages created [])),
         [chat_findUnique (cuid S 0)])).
Proof.
  intros Hid H0 Hfresh H0' created db'. split.
  - unfold ChatRepo.getOrCreateChat. rewrite Hid.
    unfold run, bind, create, call, ret. cbn -[lookup insert].
    rewrite H0. cbn -[lookup insert]. rewrite Hfresh. reflexivity.
  - intros Hrows. unfold Repository.getChatById.
    unfold run, bind, findUnique, call. cbn -[lookup insert].
    rewrite H0'. cbn -[lookup insert]. rewrite lookup_insert_eq.
    unfold messages_of in *. cbn -[lookup insert]. rewrite Hrows. reflexivity.
Qed.

Lemma getOrCreateChat_new_witness :
  run (ChatRepo.getOrCreateChat Examples.engine (Some "") (Some "u") None)
      Examples.empty_db
  = (mkDb {["generated" := mkChat "generated" (Some "u") None 1000 1000]} [],
     Ok (ChatRepo.mkChatWithMessages (mkChat "generated" (Some "u") None 1000 1000) []),
     [chat_create None (Some "u") None]).
Proof.
  apply (getOrCreateChat_new Examples.engine Examples.engine (Some "") (Some "u")
           None Examples.empty_db).
  - reflexivity.
  - reflexivity.
  - reflexivity.
  - reflexivity.
Defined.

End NewChat.

(** ** lib/chat.ts *)

Section ChatLibProps.
Import Prisma.

Lemma substring0_nonempty (n : nat) (s : string) :
  s <> "" -> JS.substring0 (Datatypes.S n) s <> "".
Proof. destruct s; [congruence | discriminate]. Qed.


(** [saveChat] on an engine that works.  The messages are added after
    the stored ones, in the order given, for this chat and without token
    counts.  A chat that exists is left as it is, title and [updatedAt]
    included.  A chat that does not exist is created for the user given,
    and its title is the title given when that is not empty, otherwise
    the first 50 characters of the first message when that is not empty,
    otherwise "New Chat".  The other chats are not touched. *)
Theorem saveChat_result (S : Storage) (chatId : string)
  (messages : list ChatLib.SaveChatMessage) (title userId : option string)
  (db : Db) :
  (forall n, (n <= 3)%nat -> fails S n = false) ->
  exists db',
    ChatLib.saveChat S chatId messages title userId db = (db', Ok tt)
    /\ (exists time, rows db' = rows db ++ ChatLib.rows_of chatId messages time)
    /\ (forall other, other <> chatId -> chats db' !! other = chats db !! other)
    /\ match chats db !! chatId with
       | Some _ => chats db' = chats db
       | None =>
           exists created,
             chats db' !! chatId = Some created
             /\ chat_id created = chatId
             /\ chat_userId created = userId
             /\ (forall t, title = Some t -> t <> "" -> chat_title created = Some t)
             /\ (forall m rest,
                    JS.truthy title = false -> messages = m :: rest ->
                    ChatLib.content m <> "" ->
                    chat_title created = Some (JS.substring0 50 (ChatLib.content m)))
             /\ (JS.truthy title = false ->
                 head (ChatLib.content <$> messages) = None
                 \/ head (ChatLib.content <$> messages) = Some "" ->
                 chat_title created = Some "New Chat")
       end.
Proof.
  intros Hengine.
  pose proof (Hengine 0%nat ltac:(lia)) as H0.
  pose proof (Hengine 1%nat ltac:(lia)) as H1.
  pose proof (Hengine 2%nat ltac:(lia)) as H2.
  pose proof (Hengine 3%nat ltac:(lia)) as H3.
  unfold ChatLib.saveChat. rewrite H0.
  destruct (chats db !! chatId) as [c |] eqn:Hc.
  - rewrite H1, H2. eexists. split; [reflexivity |]. simpl. split_and!; eauto.
  - rewrite H1, H2, H3. eexists. split; [reflexivity |]. cbn -[lookup insert].
    split_and!; eauto.
    + intros other Hother. apply lookup_insert_ne. congruence.
    + eexists. split; [apply lookup_insert_eq |]. cbn -[lookup insert].
      unfold ChatLib.title_of. split_and!; auto.
      * intros t -> Ht. simpl. destruct (String.eqb_spec t ""); congruence.
      * intros m rest Htitle -> Hm.
        assert (Ht : JS.or_string title
                       (JS.or_string
                          (JS.substring0 50 <$> (ChatLib.content <$> head (m :: rest)))
                          "New Chat")
                     = JS.or_string
                         (JS.substring0 50 <$> (ChatLib.content <$> head (m :: rest)))
                         "New Chat").
        { destruct title as [t |]; simpl in *; [| reflexivity].
          destruct (String.eqb t ""); [reflexivity | discriminate]. }
        rewrite Ht. simpl.
        destruct (String.eqb_spec (JS.substring0 50 (ChatLib.content m)) "")
          as [He | He]; [| reflexivity].
        exfalso. exact (substring0_nonempty 49 _ Hm He).
      * intros Htitle Hm.
        assert (Ht : forall d, JS.or_string title d = d).
        { intros d. destruct title as [t |]; simpl in *; [| reflexivity].
          destruct (String.eqb t ""); [reflexivity | discriminate]. }
        rewrite Ht. destruct messages as [| m rest]; simpl in *; [reflexivity |].
        destruct Hm as [[=] | [= ->]]. reflexivity.
Qed.

Lemma saveChat_result_witness :
  exists db',
    ChatLib.saveChat Examples.engine "c1" [ChatLib.mkSaveChatMessage "user" "hi"]
      None None Examples.empty_db
    = (db', Ok tt)
    /\ exists time,
         rows db'
         = rows Examples.empty_db
           ++ ChatLib.rows_of "c1" [ChatLib.mkSaveChatMessage "user" "hi"] time.
Proof.
  destruct (saveChat_result Examples.engine "c1"
              [ChatLib.mkSaveChatMessage "user" "hi"] None None Examples.empty_db)
    as (db' & Hsave & Hrows & _).
  - reflexivity.
  - exists db'. split; assumption.
Defined.







End ChatLibProps.
